(** * contrib-tracker: windowed aggregation of Launchpad activity

    A shallow embedding of [contrib-tracker.py] and the properties of its
    time-window filter, its two merge-proposal collectors, the vote
    aggregation, the caching proxy [LPWrap] and the report serializer.

    Conventions of the embedding:
    - Python exceptions are values of [exn]; code that may raise lives in
      the [result] monad (pure code) or in [M] (code that also mutates the
      proxy heap).
    - [datetime] values are counted in microseconds, the resolution of
      Python's [datetime]; a [timedelta] is a signed number of microseconds.
    - Python [dict]s are [gmap]s; [defaultdict(list)] is a [gmap] read with
      the default [[]]. *)

From Stdlib Require Import ZArith Lia Ascii.
From stdpp Require Import base option list strings gmap fin_maps sorting.

Local Open Scope Z_scope.

(** ** Exceptions and the error monad *)

Inductive exn : Type :=
| OverflowError
| TypeError
| IndexError
| KeyError
| AttributeError
| RecursionError
| NotImplementedError.

Inductive result (A : Type) : Type :=
| Ok (a : A)
| Raise (e : exn).

Arguments Ok {A} a.
Arguments Raise {A} e.

#[global] Instance result_ret : MRet result := λ A a, Ok a.

#[global] Instance result_bind : MBind result := λ A B f m,
  match m with
  | Ok a => f a
  | Raise e => Raise e
  end.

#[global] Instance result_fmap : FMap result := λ A B f m,
  match m with
  | Ok a => Ok (f a)
  | Raise e => Raise e
  end.

#[global] Instance exn_eq_dec : EqDecision exn.
Proof. solve_decision. Defined.

#[global] Instance result_eq_dec `{EqDecision A} : EqDecision (result A).
Proof. solve_decision. Defined.

(** [for x in xs: body] with [break]: the body returns the next loop state
    and whether the loop goes on. *)

Inductive flow (S : Type) : Type :=
| Continue (s : S)
| Break (s : S).

Arguments Continue {S} s.
Arguments Break {S} s.

Fixpoint for_each `{MBind M, MRet M} {A S : Type} (xs : list A)
    (body : A → S → M (flow S)) (s : S) : M S :=
  match xs with
  | [] => mret s
  | x :: rest =>
      r ← body x s;
      match r with
      | Continue s' => for_each rest body s'
      | Break s' => mret s'
      end
  end.

(** ** Dates and durations *)

Module DateTime.

(** A [datetime]: the wall-clock fields as microseconds since
    0001-01-01T00:00:00, and the UTC offset in minutes when the value is
    timezone-aware. *)
Record datetime : Type := {
  naive : Z;
  tzinfo : option Z
}.

Definition timedelta : Type := Z.

Definition us_per_day : Z := 86400000000.
Definition us_per_minute : Z := 60000000.

(** [timedelta.max.days]: the constructor refuses larger magnitudes. *)
Definition MAX_DELTA_DAYS : Z := 999999999.

(** [datetime.timedelta(days)] *)
Definition timedelta_days (days : Z) : result timedelta :=
  if (- MAX_DELTA_DAYS <=? days) && (days <=? MAX_DELTA_DAYS)
  then Ok (days * us_per_day)
  else Raise OverflowError.

(** [d.replace(tzinfo=tz)]: same wall-clock fields, other zone. *)
Definition replace_tzinfo (d : datetime) (tz : option Z) : datetime :=
  {| naive := naive d; tzinfo := tz |}.

(** [datetime.datetime.now()] at clock reading [clock]: a naive value. *)
Definition datetime_now (clock : Z) : datetime :=
  {| naive := clock; tzinfo := None |}.

(** [a - b]. Naive and aware values do not mix. Two values of the years
    1 to 9999 are less than 3652059 days apart, so the difference of two
    datetimes is always a representable [timedelta]. *)
Definition datetime_sub (a b : datetime) : result timedelta :=
  match tzinfo a, tzinfo b with
  | None, None => Ok (naive a - naive b)
  | Some oa, Some ob =>
      Ok ((naive a - oa * us_per_minute) - (naive b - ob * us_per_minute))
  | _, _ => Raise TypeError
  end.

(** The instants on or after 0001-01-01 and before 10000-01-01. *)
Definition MAX_DATETIME : Z := 3652059 * us_per_day.

(** [d - delta]: a datetime again, when it stays within the years 1 to
    9999. *)
Definition datetime_sub_delta (d : datetime) (delta : timedelta)
    : result datetime :=
  let n := naive d - delta in
  if (0 <=? n) && (n <? MAX_DATETIME)
  then Ok {| naive := n; tzinfo := tzinfo d |}
  else Raise OverflowError.

End DateTime.

Import DateTime.

(** ** The time window filter *)

Section Window.

(** The clock reading at process start. *)
Variable clock : Z.

Definition UTCNOW : datetime := datetime_now clock.

Definition in_window (window : Z) (date : option datetime) : result bool :=
  win ← timedelta_days window;
  match date with
  | None => Ok false
  | Some date =>
      let date := replace_tzinfo date None in
      delta ← datetime_sub UTCNOW date;
      Ok (delta <=? win)
  end.

End Window.

(** ** Strings *)

Module Str.

Local Open Scope char_scope.

(** [c.lower()] on one character; the characters outside A-Z are their
    own lower case (bytes above 127 belong to the UTF-8 forms of non-ASCII
    characters, and no such character lowers to an ASCII letter of
    [yaml] or [json]). *)
Definition lower_char (c : Ascii.ascii) : Ascii.ascii :=
  let n := Ascii.N_of_ascii c in
  if ((65 <=? n) && (n <=? 90))%N then Ascii.ascii_of_N (n + 32) else c.

(** [s.lower()] *)
Fixpoint lower (s : string) : string :=
  match s with
  | EmptyString => EmptyString
  | String c s' => String (lower_char c) (lower s')
  end.

(** [s.split(sep)] for a one-character separator: the pieces between the
    separators, empty pieces included; never an empty list. *)
Fixpoint split (sep : Ascii.ascii) (s : string) : list string :=
  match s with
  | EmptyString => [EmptyString]
  | String c s' =>
      if Ascii.eqb c sep then EmptyString :: split sep s'
      else match split sep s' with
           | [] => [String c EmptyString]
           | piece :: pieces => String c piece :: pieces
           end
  end.

End Str.

(** [xs[i]] for an index that is not negative. *)
Definition index {A : Type} (xs : list A) (i : nat) : result A :=
  match xs !! i with
  | Some x => Ok x
  | None => Raise IndexError
  end.

(** [d[k]] on a plain dict. *)
Definition getitem {V : Type} (d : gmap string V) (k : string) : result V :=
  match d !! k with
  | Some v => Ok v
  | None => Raise KeyError
  end.

(** [d[k].append(x)] on a [defaultdict(list)]. *)
Definition append_at {V : Type} (d : gmap string (list V)) (k : string) (x : V)
    : gmap string (list V) :=
  <[k := default [] (d !! k) ++ [x]]> d.

(** ** The remote entities read by the tracker *)

Record Person : Type := {
  display_name : string
}.

Record Comment : Type := {
  vote : string
}.

Record Vote : Type := {
  reviewer : Person;
  comment : option Comment
}.

Record MergeProposal : Type := {
  date_created : option datetime;
  web_link : string;
  votes : list Vote
}.

(** A value of the remote library as the proxy sees it: a class name and
    attributes. The attributes of the built-in values are not part of the
    model. *)
#[warnings="-register-all"]
Inductive pyobj : Type :=
| PyNone
| PyStr (s : string)
| PyInt (n : Z)
| PyDatetime (d : datetime)
| PyObject (cls : string) (attrs : list (string * pyobj)).

(** [o.__class__.__name__] *)
Definition class_name (o : pyobj) : string :=
  match o with
  | PyNone => "NoneType"
  | PyStr _ => "str"
  | PyInt _ => "int"
  | PyDatetime _ => "datetime"
  | PyObject cls _ => cls
  end.

Fixpoint assoc (attrs : list (string * pyobj)) (attr : string) : option pyobj :=
  match attrs with
  | [] => None
  | (k, v) :: rest => if String.eqb k attr then Some v else assoc rest attr
  end.

(** [getattr(o, attr)] on a value of the remote library. *)
Definition getattr_remote (o : pyobj) (attr : string) : result pyobj :=
  match o with
  | PyObject _ attrs =>
      match assoc attrs attr with
      | Some v => Ok v
      | None => Raise AttributeError
      end
  | _ => Raise AttributeError
  end.

(** [launchpad.projects[...]] and [launchpad.people[...]] *)
Module LPProject.
Record t : Type := {
  name : string;
  getMergeProposals : string → list MergeProposal
}.
End LPProject.

Module LPUser.
Record t : Type := {
  person : Person;
  getMergeProposals : string → list MergeProposal;
  (** [searchTasks(bug_reporter=self, status=..., created_since=...)] *)
  searchTasks : list string → datetime → list pyobj
}.
End LPUser.

Module Launchpad.
Record t : Type := {
  projects : gmap string LPProject.t;
  people : gmap string LPUser.t
}.
End Launchpad.

(** ** class Project *)

Module Project.

Record t : Type := {
  project : LPProject.t;
  window : Z;
  review_status : list string;
  merge_proposals : list MergeProposal
}.

Definition name (self : t) : string := LPProject.name (project self).

Section WithClock.

Variable clock : Z.

Definition _render_merge_proposals (self : t) : result (list MergeProposal) :=
  for_each (review_status self) (λ status project_mps,
    let mps := LPProject.getMergeProposals (project self) status in
    project_mps ← for_each mps (λ mp project_mps,
      keep ← in_window clock (window self) (date_created mp);
      Ok (Continue (if keep : bool then project_mps ++ [mp]
                    else project_mps))) project_mps;
    Ok (Continue project_mps)) [].

Definition __init__ (launchpad : Launchpad.t) (project : string) (window : Z)
    : result t :=
  p ← getitem (Launchpad.projects launchpad) project;
  let self := {| project := p;
                 window := window;
                 review_status :=
                   ["Needs review"; "Approved"; "Rejected"; "Merged"];
                 merge_proposals := [] |} in
  mps ← _render_merge_proposals self;
  Ok {| project := p;
        window := window;
        review_status := review_status self;
        merge_proposals := mps |}.

End WithClock.

Definition render_project_votes_by_user (self : t) (user : Person)
    : gmap string string :=
  foldl (λ votes_acc mp,
    foldl (λ votes_acc v,
      if decide (display_name (reviewer v) = display_name user)
      then match comment v with
           | Some c => <[web_link mp := vote c]> votes_acc
           | None => votes_acc
           end
      else votes_acc)
      votes_acc
      (filter (λ v, is_Some (comment v)) (votes mp)))
    ∅ (merge_proposals self).

End Project.

(** ** class LPWrap

    The proxies are objects with identity: a proxy handed out twice is the
    same object, and what one access caches the next one finds. The store
    maps the address of each proxy to its instance attributes: the field
    [lpObj] set by the constructor and the attributes cached since. *)

Module LPWrap.

Inductive value : Type :=
| Raw (o : pyobj)
| Wrapped (self : nat).

Record instance : Type := {
  lpObj : pyobj;
  cached : gmap string value
}.

(** The store of proxies, the next free address, and the attribute names
    requested from remote objects so far, oldest first. *)
Record state : Type := {
  heap : gmap nat instance;
  next : nat;
  fetches : list string
}.

Definition initial : state := {| heap := ∅; next := 0%nat; fetches := [] |}.

Definition M (A : Type) : Type := state → result A * state.

#[global] Instance M_ret : MRet M := λ A a σ, (Ok a, σ).

#[global] Instance M_bind : MBind M := λ A B f m σ,
  match m σ with
  | (Ok a, σ') => f a σ'
  | (Raise e, σ') => (Raise e, σ')
  end.

Definition lift {A : Type} (r : result A) : M A := λ σ, (r, σ).

(** [LPWrap(lpObj)] *)
Definition __init__ (lpObj : pyobj) : M nat := λ σ,
  (Ok (next σ),
   {| heap := <[next σ := {| lpObj := lpObj; cached := ∅ |}]> (heap σ);
      next := S (next σ);
      fetches := fetches σ |}).

(** [getattr(o, attr)] on a remote object: one request. *)
Definition fetch (o : pyobj) (attr : string) : M pyobj := λ σ,
  (getattr_remote o attr,
   {| heap := heap σ; next := next σ; fetches := fetches σ ++ [attr] |}).

(** The proxy at an address. A proxy whose constructor never ran has no
    [lpObj]; looking that up re-enters [__getattr__] without end. *)
Definition deref (self : nat) : M instance := λ σ,
  match heap σ !! self with
  | Some w => (Ok w, σ)
  | None => (Raise RecursionError, σ)
  end.

(** [setattr(self, attr, result)] from [__getattr__], which only runs for
    a name that is not an instance attribute yet. *)
Definition setattr (self : nat) (attr : string) (v : value) : M () := λ σ,
  (Ok (),
   {| heap := alter (λ w, {| lpObj := lpObj w;
                             cached := <[attr := v]> (cached w) |})
                    self (heap σ);
      next := next σ;
      fetches := fetches σ |}).

Definition __getattr__ (self : nat) (attr : string) : M value :=
  w ← deref self;
  result ← fetch (lpObj w) attr;
  result ← (if String.eqb (class_name result) "Entry"
            then l ← __init__ result; mret (Wrapped l)
            else mret (Raw result));
  _ ← setattr self attr result;
  mret result.

(** [v.attr]: the instance attributes first, [__getattr__] when the name
    is not among them; on a remote object, a request. *)
Definition getattr (v : value) (attr : string) : M value :=
  match v with
  | Raw o => r ← fetch o attr; mret (Raw r)
  | Wrapped self =>
      w ← deref self;
      if String.eqb attr "lpObj" then mret (Raw (lpObj w))
      else match cached w !! attr with
           | Some x => mret x
           | None => __getattr__ self attr
           end
  end.

(** [[LPWrap(t) for t in tasks]] *)
Fixpoint wrap_all (tasks : list pyobj) : M (list nat) :=
  match tasks with
  | [] => mret []
  | t :: rest => l ← __init__ t; ls ← wrap_all rest; mret (l :: ls)
  end.

End LPWrap.

Import LPWrap.

(** [in_window] on an attribute value. Only [None] and datetimes get past
    [date.replace(tzinfo=None)]. *)
Definition in_window_value (clock window : Z) (date : value) : result bool :=
  match date with
  | Raw PyNone => in_window clock window None
  | Raw (PyDatetime d) => in_window clock window (Some d)
  | Raw (PyStr _) => _ ← timedelta_days window; Raise TypeError
  | _ => _ ← timedelta_days window; Raise AttributeError
  end.

(** ** class Report *)

Module Report.

Record t : Type := {
  launchpad : Launchpad.t;
  user : LPUser.t;
  projects : list Project.t;
  window : Z;
  since : datetime;
  status : list string
}.

(** The report of one user. A bug entry is the one-item dict
    [{bug id: title}]. *)
Record UserReport : Type := {
  merge_proposals : gmap string (list string);
  bug_reports : gmap string (list (value * value));
  code_reviews : gmap string (gmap string string)
}.

Section WithClock.

Variable clock : Z.

Definition __init__ (launchpad : Launchpad.t) (user : string)
    (projects : list Project.t) (window : Z) : result t :=
  u ← getitem (Launchpad.people launchpad) user;
  delta ← timedelta_days window;
  since ← datetime_sub_delta (UTCNOW clock) delta;
  Ok {| launchpad := launchpad;
        user := u;
        projects := projects;
        window := window;
        since := since;
        status := ["New"; "Incomplete"; "Invalid"; "Won't Fix";
                   "Confirmed"; "Triaged"; "In Progress";
                   "Fix Committed"; "Fix Released"] |}.

(** The keys of the report are target names, which are strings. *)
Definition target_key (v : value) : result string :=
  match v with
  | Raw (PyStr s) => Ok s
  | _ => Raise TypeError
  end.

Definition _render_reported (self : t)
    : M (gmap string (list (value * value))) :=
  let tasks := LPUser.searchTasks (user self) (status self) (since self) in
  tasks ← wrap_all tasks;
  for_each tasks (λ t reported,
    bug ← getattr (Wrapped t) "bug";
    date ← getattr bug "date_created";
    keep ← lift (in_window_value clock (window self) date);
    if keep : bool then
      target ← getattr (Wrapped t) "bug_target_name";
      key ← lift (target_key target);
      bug ← getattr (Wrapped t) "bug";
      id ← getattr bug "id";
      title ← getattr (Wrapped t) "title";
      mret (Continue (append_at reported key (id, title)))
    else mret (Continue reported)) ∅.

Definition statuses : list string :=
  ["Work in progress"; "Needs review"; "Approved"; "Rejected"; "Merged";
   "Code failed to merge"; "Queued"; "Superseded"].

(** The body of the inner loop: one merge proposal of one status. *)
Definition collect (self : t) (mp : MergeProposal)
    (proposals : gmap string (list string))
    : result (flow (gmap string (list string))) :=
  keep ← in_window clock (window self) (date_created mp);
  if negb keep then Ok (Break proposals)
  else
    project ← index (Str.split "/"%char (web_link mp)) 4;
    Ok (Continue (append_at proposals project (web_link mp))).

Definition _render_merge_proposals (self : t)
    : result (gmap string (list string)) :=
  for_each statuses (λ status proposals,
    let all_mps := LPUser.getMergeProposals (user self) status in
    proposals ← for_each all_mps (collect self) proposals;
    Ok (Continue proposals)) ∅.

Definition generate (self : t) : M UserReport :=
  mps ← lift (_render_merge_proposals self);
  bugs ← _render_reported self;
  let reviews :=
    foldl (λ reviews project,
             <[Project.name project :=
                 Project.render_project_votes_by_user project
                   (LPUser.person (user self))]>
               reviews)
          ∅ (projects self) in
  mret {| merge_proposals := mps;
          bug_reports := bugs;
          code_reviews := reviews |}.

End WithClock.

End Report.

(** ** output_data *)

Section Serializer.

(** The two encoders are library code: [yaml.dump(report,
    default_flow_style=...)] and [json.dumps(report)]. *)
Context {report : Type}.
Variable yaml_dump : report → bool → string.
Variable json_dumps : report → string.

Definition output_data (r : report) (format : string) : result string :=
  let format := Str.lower format in
  if String.eqb format "yaml" then Ok (yaml_dump r false)
  else if String.eqb format "json" then Ok (json_dumps r)
  else Raise NotImplementedError.

End Serializer.

(** ** parse_args and main

    The command line as [parse_args] leaves it, and [main] over a
    [launchpad] that [Launchpad.login_with] returned. What [main] prints
    and writes is recorded in the [world]; logging has no part in it. *)

Module Main.

(** The parsed options, without the log level. [out] is absent when
[--out] is not given. *)
Record Options : Type := {
  users : string;
  projects : string;
  window : Z;
  format : string;
  quiet : bool;
  out : option string
}.

(** The [choices] of [--format]. *)
Definition format_choices : list string := ["YAML"; "yaml"; "JSON"; "json"].

(** The proxies, the lines printed and the files written, oldest first. *)
Record world : Type := {
  proxies : state;
  stdout : list string;
  files : list (string * string)
}.

Definition IO (A : Type) : Type := world → result A * world.

#[global] Instance IO_ret : MRet IO := λ A a ω, (Ok a, ω).

#[global] Instance IO_bind : MBind IO := λ A B f m ω,
  match m ω with
  | (Ok a, ω') => f a ω'
  | (Raise e, ω') => (Raise e, ω')
  end.

Definition pure {A : Type} (r : result A) : IO A := λ ω, (r, ω).

(** A computation on the proxies, inside the world. *)
Definition on_proxies {A : Type} (m : M A) : IO A := λ ω,
  let '(r, σ) := m (proxies ω) in
  (r, {| proxies := σ; stdout := stdout ω; files := files ω |}).

(** [print(text)] *)
Definition print (text : string) : IO () := λ ω,
  (Ok (), {| proxies := proxies ω;
             stdout := stdout ω ++ [text];
             files := files ω |}).

(** [with open(path, "w+") as f: f.write(text)] *)
Definition write_file (path text : string) : IO () := λ ω,
  (Ok (), {| proxies := proxies ω;
             stdout := stdout ω;
             files := files ω ++ [(path, text)] |}).

(** [if opts.out:] holds for a path that is not empty. *)
Definition truthy (out : option string) : option string :=
  match out with
  | Some EmptyString => None
  | Some path => Some path
  | None => None
  end.

Section WithClock.

Variable clock : Z.
Variable yaml_dump : gmap string Report.UserReport → bool → string.
Variable json_dumps : gmap string Report.UserReport → string.

(** The first loop of [main]: one aggregator per project name. *)
Definition build_projects (launchpad : Launchpad.t) (opts : Options)
    : result (list Project.t) :=
  for_each (Str.split ","%char (projects opts)) (λ project projects,
    p ← Project.__init__ clock launchpad project (window opts);
    Ok (Continue (projects ++ [p]))) [].

(** The second loop of [main]: one report per user name. *)
Definition build_reports (launchpad : Launchpad.t) (opts : Options)
    (projects : list Project.t) : IO (gmap string Report.UserReport) :=
  for_each (Str.split ","%char (users opts)) (λ user reports,
    report ← pure (Report.__init__ clock launchpad user projects
                     (window opts));
    r ← on_proxies (Report.generate clock report);
    mret (Continue (<[user := r]> reports))) ∅.

Definition main (launchpad : Launchpad.t) (opts : Options) : IO () :=
  projects ← pure (build_projects launchpad opts);
  reports ← build_reports launchpad opts projects;
  _ ← (if negb (quiet opts)
       then text ← pure (output_data yaml_dump json_dumps reports
                           (format opts));
            print text
       else mret ());
  match truthy (out opts) with
  | Some path =>
      text ← pure (output_data yaml_dump json_dumps reports (format opts));
      write_file path text
  | None => mret ()
  end.

End WithClock.

End Main.

(** ** Vocabulary of the statements *)

(** The day counts that [timedelta] represents. *)
Definition valid_days (days : Z) : Prop :=
  - MAX_DELTA_DAYS ≤ days ≤ MAX_DELTA_DAYS.

(** A merge proposal passes the window check. *)
Definition passes (clock window : Z) (mp : MergeProposal) : bool :=
  bool_decide (in_window clock window (date_created mp) = Ok true).

(** The longest prefix of a list whose elements all satisfy [p]. *)
Fixpoint take_while {A : Type} (p : A → bool) (xs : list A) : list A :=
  match xs with
  | [] => []
  | x :: rest => if p x then x :: take_while p rest else []
  end.

(** The path segments of a link, and the project it names. *)
Definition segments (link : string) : list string := Str.split "/"%char link.

Definition project_of (link : string) : option string := segments link !! 4%nat.

Definition well_formed (mp : MergeProposal) : Prop :=
  (5 ≤ length (segments (web_link mp)))%nat.

(** A present timestamp with the given wall-clock reading. *)
Definition at_time (us : Z) (tz : option Z) : option datetime :=
  Some {| naive := us; tzinfo := tz |}.

Definition malformed (mp : MergeProposal) : Prop :=
  (length (segments (web_link mp)) < 5)%nat.

#[global] Instance well_formed_dec (mp : MergeProposal) : Decision (well_formed mp).
Proof. unfold well_formed. apply _. Defined.

(** The vote values that count for [user] on one merge proposal, in fetch
    order: those of the votes that carry a comment and whose reviewer has
    the user's display name. *)
Definition counted_votes (user : Person) (mp : MergeProposal) : list string :=
  omap (λ v, match comment v with
             | Some c =>
                 if decide (display_name (reviewer v) = display_name user)
                 then Some (vote c) else None
             | None => None
             end) (votes mp).

(** The same over the retained merge proposals that carry a given link. *)
Definition votes_on (self : Project.t) (user : Person) (link : string)
    : list string :=
  flat_map (λ mp, if decide (web_link mp = link) then counted_votes user mp
                  else [])
           (Project.merge_proposals self).

(** The last element of a list, or a fallback when the list is empty. *)
Definition or_last {A : Type} (o : option A) (l : list A) : option A :=
  match last l with
  | Some x => Some x
  | None => o
  end.


(** The merge proposals of a user that the report builder examines inside
    the window: for each status in order, the fetched proposals before the
    first one that fails the window check. *)
Definition prefixes (clock window : Z) (fetched : string → list MergeProposal)
    (statuses : list string) : list MergeProposal :=
  flat_map (λ status, take_while (passes clock window) (fetched status))
           statuses.

Definition examined (clock : Z) (self : Report.t) : list MergeProposal :=
  prefixes clock (Report.window self)
           (LPUser.getMergeProposals (Report.user self)) Report.statuses.

(** The links among [mps] that name project [p], in order. *)
Definition links_of (p : string) (mps : list MergeProposal) : list string :=
  web_link <$> filter (λ mp, project_of (web_link mp) = Some p) mps.

(** Filing one proposal under the project its link names. *)
Definition file (proposals : gmap string (list string)) (mp : MergeProposal)
    : gmap string (list string) :=
  append_at proposals (default EmptyString (project_of (web_link mp)))
            (web_link mp).

(** The merge proposals of a project that pass the window check, status by
    status. *)
Definition retained (clock window : Z) (fetched : string → list MergeProposal)
    (statuses : list string) : list MergeProposal :=
  flat_map (λ status,
              filter (λ mp, in_window clock window (date_created mp) = Ok true)
                     (fetched status))
           statuses.

(** What client code does with proxies between two accesses: read an
    attribute of a value it holds, or wrap another remote object. *)
Inductive op : Type :=
| Access (v : value) (attr : string)
| Wrap (o : pyobj).

Definition step (σ : state) (o : op) : state :=
  match o with
  | Access v attr => (getattr v attr σ).2
  | Wrap obj => (LPWrap.__init__ obj σ).2
  end.

Definition run (ops : list op) (σ : state) : state := foldl step σ ops.

(** The addresses from [next] on are free. *)
Definition fresh_from_next (σ : state) : Prop :=
  ∀ l, (next σ ≤ l)%nat → heap σ !! l = None.

(** [σ'] keeps every proxy of [σ], with the same remote object and at least
    the same cached attributes. *)
Definition keeps (σ σ' : state) : Prop :=
  (next σ ≤ next σ')%nat
  ∧ ∀ l w, heap σ !! l = Some w →
      ∃ w', heap σ' !! l = Some w'
            ∧ lpObj w' = lpObj w
            ∧ ∀ a x, cached w !! a = Some x → cached w' !! a = Some x.

(** The value and the state that a first access of [attr] on the proxy at
    [self] leaves when the remote object answers [r]. *)
Definition after_miss (σ : state) (self : nat) (attr : string) (r : pyobj)
    : value * state :=
  if String.eqb (class_name r) "Entry"
  then (Wrapped (next σ),
        {| heap := alter (λ w, {| lpObj := lpObj w;
                                  cached := <[attr := Wrapped (next σ)]> (cached w) |})
                         self
                         (<[next σ := {| lpObj := r; cached := ∅ |}]> (heap σ));
           next := S (next σ);
           fetches := fetches σ ++ [attr] |})
  else (Raw r,
        {| heap := alter (λ w, {| lpObj := lpObj w;
                                  cached := <[attr := Raw r]> (cached w) |})
                         self (heap σ);
           next := next σ;
           fetches := fetches σ ++ [attr] |}).

(** [sep.join(pieces)] for a one-character separator. *)
Fixpoint sep_join (sep : Ascii.ascii) (pieces : list string) : string :=
  match pieces with
  | [] => EmptyString
  | [piece] => piece
  | piece :: rest => piece +:+ String sep (sep_join sep rest)
  end.

(** How often a character occurs in a string. *)
Fixpoint occurrences (c : Ascii.ascii) (s : string) : nat :=
  match s with
  | EmptyString => 0
  | String c' s' =>
      if Ascii.eqb c' c then S (occurrences c s') else occurrences c s'
  end.

(** A merge proposal was created at or after another one; both creation
    dates are known. *)
Definition not_older (a b : MergeProposal) : Prop :=
  match date_created a, date_created b with
  | Some da, Some db => naive db ≤ naive da
  | _, _ => False
  end.

(** A fetched list in the order newest first. *)
Definition newest_first (mps : list MergeProposal) : Prop :=
  StronglySorted not_older mps.

(** The same report builder over another provider of merge proposals. *)
Definition with_fetched (self : Report.t)
    (fetched : string → list MergeProposal) : Report.t :=
  let u := Report.user self in
  {| Report.launchpad := Report.launchpad self;
     Report.user :=
       {| LPUser.person := LPUser.person u;
          LPUser.getMergeProposals := fetched;
          LPUser.searchTasks := LPUser.searchTasks u |};
     Report.projects := Report.projects self;
     Report.window := Report.window self;
     Report.since := Report.since self;
     Report.status := Report.status self |}.

(** Every list of a grouping is non-empty and holds only links that name
    its key. *)
Definition grouped_by_project (proposals : gmap string (list string)) : Prop :=
  ∀ p links, proposals !! p = Some links →
    links ≠ [] ∧ Forall (λ l, project_of l = Some p) links.


(** What a bug task of the provider holds, as far as the report reads it. *)
Record task_info : Type := {
  info_bug : pyobj;
  info_date : option datetime;
  info_target : string;
  info_id : pyobj;
  info_title : pyobj
}.

(** A creation date as the provider hands it out. *)
Definition date_value (date : option datetime) : pyobj :=
  match date with
  | Some d => PyDatetime d
  | None => PyNone
  end.

(** A remote task and its nested bug provide the attributes that the report
    reads: the bug is an entry, the target name a string, the id and the
    title plain values. *)
Definition bug_task (t : pyobj) (i : task_info) : Prop :=
  getattr_remote t "bug" = Ok (info_bug i)
  ∧ class_name (info_bug i) = "Entry"
  ∧ getattr_remote (info_bug i) "date_created" = Ok (date_value (info_date i))
  ∧ getattr_remote t "bug_target_name" = Ok (PyStr (info_target i))
  ∧ getattr_remote (info_bug i) "id" = Ok (info_id i)
  ∧ class_name (info_id i) ≠ "Entry"
  ∧ getattr_remote t "title" = Ok (info_title i)
  ∧ class_name (info_title i) ≠ "Entry".

Definition bug_in_window (clock window : Z) (i : task_info) : bool :=
  bool_decide (in_window clock window (info_date i) = Ok true).

(** The bug reports after one more task. *)
Definition record_bug (clock window : Z)
    (reported : gmap string (list (value * value))) (i : task_info)
    : gmap string (list (value * value)) :=
  if bug_in_window clock window i
  then append_at reported (info_target i) (Raw (info_id i), Raw (info_title i))
  else reported.

(** The attribute names requested from the provider for one task. *)
Definition task_requests (clock window : Z) (i : task_info) : list string :=
  if bug_in_window clock window i
  then ["bug"; "date_created"; "bug_target_name"; "id"; "title"]
  else ["bug"; "date_created"].

(** The body of the loop of [_render_reported], for the proxy at [t]. *)
Definition reported_body (clock window : Z) (t : nat)
    (reported : gmap string (list (value * value)))
    : M (flow (gmap string (list (value * value)))) :=
  bug ← getattr (Wrapped t) "bug";
  date ← getattr bug "date_created";
  keep ← lift (in_window_value clock window date);
  if keep : bool then
    target ← getattr (Wrapped t) "bug_target_name";
    key ← lift (Report.target_key target);
    bug ← getattr (Wrapped t) "bug";
    id ← getattr bug "id";
    title ← getattr (Wrapped t) "title";
    mret (Continue (append_at reported key (id, title)))
  else mret (Continue reported).

(** ** Fixtures *)

Module Fixture.

(** Process start: 2020-01-01T00:00:00. *)
Definition clock : Z := 737424 * us_per_day.

(** A UTC timestamp [days] days before process start; [today] is
process start itself. *)
Definition days_ago (days : Z) : option datetime :=
  at_time (clock - days * us_per_day) (Some 0).

Definition today : option datetime := days_ago 0.

Definition proposal (date : option datetime) (link : string) : MergeProposal :=
  {| date_created := date; web_link := link; votes := [] |}.

(** A provider that answers [mps] for one status and nothing for the
others. *)
Definition only (status : string) (mps : list MergeProposal)
    : string → list MergeProposal :=
  λ s, if String.eqb s status then mps else [].

(** A provider that answers [mps] for every status. *)
Definition always (mps : list MergeProposal) : string → list MergeProposal :=
  λ _, mps.

Definition alice : Person := {| display_name := "Alice" |}.

Definition launchpad (fetched : string → list MergeProposal) : Launchpad.t :=
  {| Launchpad.projects :=
       {[ "demo" := {| LPProject.name := "demo";
                       LPProject.getMergeProposals := fetched |} ]};
     Launchpad.people :=
       {[ "alice" := {| LPUser.person := alice;
                        LPUser.getMergeProposals := fetched;
                        LPUser.searchTasks := λ _ _, [] |} ]} |}.

(** The report builder of user alice over a provider, as its constructor
leaves it. *)
Definition report (fetched : string → list MergeProposal) (window : Z)
    : Report.t :=
  {| Report.launchpad := launchpad fetched;
     Report.user := {| LPUser.person := alice;
                       LPUser.getMergeProposals := fetched;
                       LPUser.searchTasks := λ _ _, [] |};
     Report.projects := [];
     Report.window := window;
     Report.since := {| naive := clock - window * us_per_day;
                        tzinfo := None |};
     Report.status := ["New"; "Incomplete"; "Invalid"; "Won't Fix";
                       "Confirmed"; "Triaged"; "In Progress";
                       "Fix Committed"; "Fix Released"] |}.

(** The project aggregator of project demo before it collects. *)
Definition project (fetched : string → list MergeProposal) (window : Z)
    : Project.t :=
  {| Project.project := {| LPProject.name := "demo";
                           LPProject.getMergeProposals := fetched |};
     Project.window := window;
     Project.review_status :=
       ["Needs review"; "Approved"; "Rejected"; "Merged"];
     Project.merge_proposals := [] |}.

Definition link (n : string) : string :=
  "https://code.launchpad.net/~alice/demo/+git/demo/+merge/" +:+ n.

(** A bug task: a remote entry with a plain title and a nested bug entry. *)
Definition bug : pyobj :=
  PyObject "Entry" [("id", PyInt 1875); ("title", PyStr "crash on start")].

Definition task : pyobj :=
  PyObject "Entry" [("title", PyStr "Bug #1875 in demo"); ("bug", bug)].


(** [t = LPWrap(task); t.bug.title; t.bug.title], with the values of the
four attribute reads. *)
Definition title_twice : M (value * value * value * value) :=
  t ← LPWrap.__init__ task;
  b1 ← getattr (Wrapped t) "bug";
  x1 ← getattr b1 "title";
  b2 ← getattr (Wrapped t) "bug";
  x2 ← getattr b2 "title";
  mret (b1, x1, b2, x2).

End Fixture.

(** Bug tasks of a provider, and a report builder over them. *)
Module BugFixture.

Definition bug_of (id : Z) (title : string) (date : option datetime) : pyobj :=
  PyObject "Entry" [("id", PyInt id);
                    ("title", PyStr title);
                    ("date_created", date_value date)].

Definition recent : task_info :=
  {| info_bug := bug_of 1875 "crash on start" (Fixture.days_ago 2);
     info_date := Fixture.days_ago 2;
     info_target := "demo";
     info_id := PyInt 1875;
     info_title := PyStr "Bug #1875 in demo" |}.

Definition stale : task_info :=
  {| info_bug := bug_of 1201 "typo" (Fixture.days_ago 30);
     info_date := Fixture.days_ago 30;
     info_target := "demo";
     info_id := PyInt 1201;
     info_title := PyStr "Bug #1201 in demo" |}.

Definition task (i : task_info) : pyobj :=
  PyObject "Entry" [("bug_target_name", PyStr (info_target i));
                    ("title", info_title i);
                    ("bug", info_bug i)].

Definition report (tasks : list pyobj) (projects : list Project.t)
    (window : Z) : Report.t :=
  {| Report.launchpad := Fixture.launchpad (Fixture.always []);
     Report.user := {| LPUser.person := Fixture.alice;
                       LPUser.getMergeProposals := Fixture.always [];
                       LPUser.searchTasks := λ _ _, tasks |};
     Report.projects := projects;
     Report.window := window;
     Report.since := {| naive := Fixture.clock - window * us_per_day;
                        tzinfo := None |};
     Report.status := ["New"; "Incomplete"; "Invalid"; "Won't Fix";
                       "Confirmed"; "Triaged"; "In Progress";
                       "Fix Committed"; "Fix Released"] |}.

(** Options of a run over project demo for user alice. *)
Definition options (projects : string) : Main.Options :=
  {| Main.users := "alice";
     Main.projects := projects;
     Main.window := 8;
     Main.format := "yaml";
     Main.quiet := false;
     Main.out := None |}.

Definition world0 : Main.world :=
  {| Main.proxies := initial; Main.stdout := []; Main.files := [] |}.

End BugFixture.

(** * Properties *)

(** ** The time window filter *)

Section WindowFacts.

Variable clock : Z.

Lemma timedelta_days_valid (days : Z) :
  valid_days days → timedelta_days days = Ok (days * us_per_day).
Proof.
  unfold valid_days, timedelta_days. intros [Hlo Hhi].
  apply Z.leb_le in Hlo. apply Z.leb_le in Hhi.
  by rewrite Hlo, Hhi.
Qed.

Lemma timedelta_days_overflow (days : Z) :
  ¬ valid_days days → timedelta_days days = Raise OverflowError.
Proof.
  unfold valid_days, timedelta_days. intros Hout.
  destruct (- MAX_DELTA_DAYS <=? days) eqn:Hlo;
    destruct (days <=? MAX_DELTA_DAYS) eqn:Hhi; simpl; try done.
  apply Z.leb_le in Hlo. apply Z.leb_le in Hhi. lia.
Qed.

Lemma valid_days_dec (days : Z) : valid_days days ∨ ¬ valid_days days.
Proof. unfold valid_days. lia. Qed.

Lemma in_window_absent (window : Z) :
  valid_days window → in_window clock window None = Ok false.
Proof.
  intros Hv. unfold in_window. by rewrite (timedelta_days_valid _ Hv).
Qed.

Lemma in_window_present (window : Z) (date : datetime) :
  valid_days window →
  in_window clock window (Some date)
  = Ok (clock - naive date <=? window * us_per_day).
Proof.
  intros Hv. unfold in_window. by rewrite (timedelta_days_valid _ Hv).
Qed.

Lemma in_window_overflow (window : Z) (date : option datetime) :
  ¬ valid_days window → in_window clock window date = Raise OverflowError.
Proof.
  intros Hv. unfold in_window. by rewrite (timedelta_days_overflow _ Hv).
Qed.

Lemma in_window_true_iff (window : Z) (date : datetime) :
  in_window clock window (Some date) = Ok true
  ↔ valid_days window ∧ clock - window * us_per_day ≤ naive date.
Proof.
  destruct (valid_days_dec window) as [Hv|Hv].
  - rewrite (in_window_present _ _ Hv). split.
    + intros [= H]. apply Z.leb_le in H. split; [done | lia].
    + intros [_ H]. f_equal. apply Z.leb_le. lia.
  - rewrite (in_window_overflow _ _ Hv). split; [done | tauto].
Qed.

Lemma in_window_false_iff (window : Z) (date : datetime) :
  in_window clock window (Some date) = Ok false
  ↔ valid_days window ∧ naive date < clock - window * us_per_day.
Proof.
  destruct (valid_days_dec window) as [Hv|Hv].
  - rewrite (in_window_present _ _ Hv). split.
    + intros [= H]. apply Z.leb_gt in H. split; [done | lia].
    + intros [_ H]. f_equal. apply Z.leb_gt. lia.
  - rewrite (in_window_overflow _ _ Hv). split; [done | tauto].
Qed.

End WindowFacts.

(** C1, as stated, fails: a window of 1000000000 days is not negative, yet
    [in_window] does not answer false for an absent timestamp. The duration
    is built before the timestamp is looked at, and building it overflows. *)
Lemma in_window_absent_huge_window :
  0 ≤ 1000000000
  ∧ in_window 0 1000000000 None = Raise OverflowError
  ∧ in_window 0 1000000000 None ≠ Ok false.
Proof. by vm_compute. Qed.

(** C1 (amended): for every window [0 ≤ W ≤ 999999999] days, [in_window] is
    false for an absent timestamp, true for a timestamp equal to the
    process-start now, true for a timestamp at most [W] days in the past,
    false for one more than [W] days in the past, and true for every future
    timestamp, however far. *)
Theorem in_window_cases (clock W : Z) :
  0 ≤ W ≤ MAX_DELTA_DAYS →
  in_window clock W None = Ok false
  ∧ (∀ T, naive T = clock → in_window clock W (Some T) = Ok true)
  ∧ (∀ T, 0 ≤ clock - naive T ≤ W * us_per_day →
          in_window clock W (Some T) = Ok true)
  ∧ (∀ T, W * us_per_day < clock - naive T →
          in_window clock W (Some T) = Ok false)
  ∧ (∀ T, clock < naive T → in_window clock W (Some T) = Ok true).
Proof.
  intros HW.
  assert (Hv : valid_days W) by (unfold valid_days, MAX_DELTA_DAYS in *; lia).
  assert (Hday : 0 ≤ W * us_per_day) by (unfold us_per_day; lia).
  split; [by apply in_window_absent |].
  repeat split; intros T HT.
  - apply in_window_true_iff. split; [done | lia].
  - apply in_window_true_iff. split; [done | lia].
  - apply in_window_false_iff. split; [done | lia].
  - apply in_window_true_iff. split; [done | lia].
Qed.

Lemma in_window_cases_witness :
  in_window 0 8 None = Ok false
  ∧ (∀ T, naive T = 0 → in_window 0 8 (Some T) = Ok true)
  ∧ (∀ T, 0 ≤ 0 - naive T ≤ 8 * us_per_day →
          in_window 0 8 (Some T) = Ok true)
  ∧ (∀ T, 8 * us_per_day < 0 - naive T →
          in_window 0 8 (Some T) = Ok false)
  ∧ (∀ T, 0 < naive T → in_window 0 8 (Some T) = Ok true).
Proof. apply (in_window_cases 0 8). unfold MAX_DELTA_DAYS. lia. Defined.

(** C6, as stated, fails at both ends of the interval: with a window of 8
    days, a timestamp exactly 8 days old is in the window although it is
    not strictly after [now − 8 days], and a timestamp one microsecond in
    the future is in the window although it is after now. *)
Lemma in_window_not_half_open :
  (in_window 0 8 (at_time (- 8 * us_per_day) None) = Ok true
   ∧ ¬ (0 - 8 * us_per_day < - 8 * us_per_day ≤ 0))
  ∧ (in_window 0 8 (at_time 1 None) = Ok true
     ∧ ¬ (0 - 8 * us_per_day < 1 ≤ 0)).
Proof. split; (split; [by vm_compute | unfold us_per_day; lia]). Qed.

(** C6 (amended): the window is the closed, upward-unbounded interval
    [[now − window, +∞)]: for every window [W] and present timestamp [T],
    [in_window W T] is true exactly when [W] is a representable day count
    (at most 999999999 in magnitude) and [T] is at or after
    [now − W days]. *)
Theorem in_window_interval (clock W : Z) (T : datetime) :
  in_window clock W (Some T) = Ok true
  ↔ valid_days W ∧ clock - W * us_per_day ≤ naive T.
Proof. apply in_window_true_iff. Qed.

(** C7, as stated, fails in both directions: with a window of −1 day the
    timestamp equal to now is outside the window, and with a window of 0
    days a timestamp after now is inside it. *)
Lemma in_window_nonpositive_window_fails :
  in_window 0 (-1) (at_time 0 None) = Ok false
  ∧ in_window 0 0 (at_time 1 None) = Ok true.
Proof. by vm_compute. Qed.

(** C7 (amended): for every window [−999999999 ≤ W ≤ 0], [in_window W T] is
    true for a present timestamp [T] exactly when [T] is at or after
    [now + |W| days]. So it is false for every past timestamp; for [W = 0]
    it is true at exactly now and for every future timestamp; for [W < 0]
    it is false at exactly now. *)
Theorem in_window_nonpositive_window (clock W : Z) (T : datetime) :
  - MAX_DELTA_DAYS ≤ W ≤ 0 →
  (in_window clock W (Some T) = Ok true ↔ clock + - W * us_per_day ≤ naive T)
  ∧ (naive T < clock → in_window clock W (Some T) = Ok false)
  ∧ (W = 0 → clock ≤ naive T → in_window clock W (Some T) = Ok true)
  ∧ (W < 0 → naive T = clock → in_window clock W (Some T) = Ok false).
Proof.
  intros HW.
  assert (Hv : valid_days W) by (unfold valid_days, MAX_DELTA_DAYS in *; lia).
  assert (Hday : W * us_per_day ≤ 0) by (unfold us_per_day; lia).
  repeat split.
  - intros H. apply in_window_true_iff in H. lia.
  - intros H. apply in_window_true_iff. split; [done | lia].
  - intros H. apply in_window_false_iff. split; [done | lia].
  - intros -> H. apply in_window_true_iff. split; [done | lia].
  - intros H HT. apply in_window_false_iff. split; [done |].
    unfold us_per_day. lia.
Qed.

Lemma in_window_nonpositive_window_witness :
  (in_window 0 (-1) (at_time 0 None) = Ok true
   ↔ 0 + - (-1) * us_per_day ≤ 0)
  ∧ (0 < 0 → in_window 0 (-1) (at_time 0 None) = Ok false)
  ∧ (-1 = 0 → 0 ≤ 0 → in_window 0 (-1) (at_time 0 None) = Ok true)
  ∧ (-1 < 0 → 0 = 0 → in_window 0 (-1) (at_time 0 None) = Ok false).
Proof.
  apply (in_window_nonpositive_window 0 (-1) {| naive := 0; tzinfo := None |}).
  unfold MAX_DELTA_DAYS. lia.
Defined.

(** ** Loops in the error monad *)

Lemma bind_Ok {A B : Type} (a : A) (f : A → result B) : Ok a ≫= f = f a.
Proof. done. Qed.

Lemma bind_Raise {A B : Type} (e : exn) (f : A → result B) :
  Raise e ≫= f = Raise e.
Proof. done. Qed.

Lemma for_each_cons {A S : Type} (x : A) (xs : list A)
    (body : A → S → result (flow S)) (s : S) :
  for_each (x :: xs) body s
  = match body x s with
    | Ok (Continue s') => for_each xs body s'
    | Ok (Break s') => Ok s'
    | Raise e => Raise e
    end.
Proof. simpl. unfold mbind, result_bind. by destruct (body x s) as [[]|]. Qed.

Lemma for_each_ext {A S : Type} (xs : list A)
    (f g : A → S → result (flow S)) (s : S) :
  (∀ x s, f x s = g x s) → for_each xs f s = for_each xs g s.
Proof.
  intros Hfg. revert s. induction xs as [|x xs IH]; intros s; [done|].
  rewrite !for_each_cons, Hfg. by destruct (g x s) as [[]|].
Qed.

(** ** Counting in concatenations *)

Section Counting.

Context {A B : Type} (P : B → Prop) `{!∀ b, Decision (P b)}.

Lemma filter_Exists_length (l : list B) :
  Exists P l → (1 ≤ length (filter P l))%nat.
Proof.
  induction 1 as [b l Hb|b l _ IH]; rewrite filter_cons.
  - rewrite decide_True by done. simpl. lia.
  - destruct (decide (P b)); simpl; lia.
Qed.

Lemma flat_map_filter_length (f : A → list B) (x : A) (xs : list A) :
  length (filter P (flat_map f (x :: xs)))
  = (length (filter P (f x)) + length (filter P (flat_map f xs)))%nat.
Proof. simpl. by rewrite filter_app, length_app. Qed.

Lemma flat_map_Exists_once (f : A → list B) (xs : list A) (i : nat) (x : A) :
  xs !! i = Some x → Exists P (f x) →
  (1 ≤ length (filter P (flat_map f xs)))%nat.
Proof.
  revert i. induction xs as [|a xs IH]; intros i Hi Hx; [done|].
  rewrite flat_map_filter_length. destruct i as [|i]; simplify_eq/=.
  - pose proof (filter_Exists_length _ Hx). lia.
  - pose proof (IH _ Hi Hx). lia.
Qed.

Lemma flat_map_Exists_twice (f : A → list B) (xs : list A) (i j : nat)
    (x y : A) :
  i ≠ j → xs !! i = Some x → xs !! j = Some y →
  Exists P (f x) → Exists P (f y) →
  (2 ≤ length (filter P (flat_map f xs)))%nat.
Proof.
  revert i j. induction xs as [|a xs IH]; intros i j Hij Hi Hj Hx Hy; [done|].
  rewrite flat_map_filter_length.
  destruct i as [|i], j as [|j]; simplify_eq/=.
  - pose proof (filter_Exists_length _ Hx).
    pose proof (flat_map_Exists_once f xs j y Hj Hy). lia.
  - pose proof (filter_Exists_length _ Hy).
    pose proof (flat_map_Exists_once f xs i x Hi Hx). lia.
  - assert (i ≠ j) by congruence.
    pose proof (IH i j ltac:(done) Hi Hj Hx Hy). lia.
Qed.

End Counting.

(** ** The vote aggregation *)

Lemma or_last_cons {A : Type} (o : option A) (x : A) (l : list A) :
  or_last o (x :: l) = or_last (Some x) l.
Proof.
  unfold or_last. destruct l as [|y l]; [done|].
  rewrite last_cons. by destruct (last (y :: l)).
Qed.

Lemma or_last_app {A : Type} (o : option A) (l1 l2 : list A) :
  or_last o (l1 ++ l2) = or_last (or_last o l1) l2.
Proof.
  revert o. induction l1 as [|x l1 IH]; intros o; [done|].
  simpl. rewrite !or_last_cons. apply IH.
Qed.

Lemma or_last_None {A : Type} (l : list A) : or_last None l = last l.
Proof. unfold or_last. by destruct (last l). Qed.

Section VoteFacts.

Variable user : Person.

(** The votes of one merge proposal: the entry of its link becomes the last
    counted vote, the other entries stay. *)
Lemma votes_of_proposal (mp : MergeProposal) (vs : list Vote)
    (acc : gmap string string) (link : string) :
  foldl (λ votes_acc v,
           if decide (display_name (reviewer v) = display_name user)
           then match comment v with
                | Some c => <[web_link mp := vote c]> votes_acc
                | None => votes_acc
                end
           else votes_acc)
        acc (filter (λ v, is_Some (comment v)) vs) !! link
  = or_last (acc !! link)
      (if decide (web_link mp = link)
       then omap (λ v, match comment v with
                       | Some c =>
                           if decide (display_name (reviewer v)
                                      = display_name user)
                           then Some (vote c) else None
                       | None => None
                       end) vs
       else []).
Proof.
  revert acc. induction vs as [|v vs IH]; intros acc.
  - simpl. by destruct (decide _).
  - rewrite filter_cons.
    destruct (decide (is_Some (comment v))) as [[c Hc]|Hn].
    + simpl. rewrite IH, Hc.
      destruct (decide (web_link mp = link)) as [->|Hne]; simpl.
      * destruct (decide (display_name _ = _)); simpl; [|done].
        rewrite or_last_cons. by rewrite lookup_insert_eq.
      * destruct (decide (display_name _ = _)); [|done].
        by rewrite lookup_insert_ne.
    + rewrite IH. destruct (comment v) eqn:Hc; [exfalso; apply Hn; eauto|].
      destruct (decide (web_link mp = link)); simpl; by rewrite ?Hc.
Qed.

Lemma votes_of_proposals (mps : list MergeProposal)
    (acc : gmap string string) (link : string) :
  foldl (λ votes_acc mp,
      foldl (λ votes_acc v,
               if decide (display_name (reviewer v) = display_name user)
               then match comment v with
                    | Some c => <[web_link mp := vote c]> votes_acc
                    | None => votes_acc
                    end
               else votes_acc)
            votes_acc (filter (λ v, is_Some (comment v)) (votes mp)))
    acc mps !! link
  = or_last (acc !! link)
      (flat_map (λ mp, if decide (web_link mp = link)
                       then counted_votes user mp else []) mps).
Proof.
  revert acc. induction mps as [|mp mps IH]; intros acc; [done|].
  simpl. rewrite IH, or_last_app. f_equal. apply votes_of_proposal.
Qed.

End VoteFacts.

(** C3: for every project aggregator, user and proposal link, the entry
    that [render_project_votes_by_user] records under the link is the last,
    in fetch order, of the vote values carried by a comment and cast by a
    reviewer whose display name equals the user's, over the retained merge
    proposals with that link; there is no entry when there is no such
    vote. Earlier votes are overwritten, so one value survives per link. *)
Theorem votes_by_user_last_wins (self : Project.t) (user : Person)
    (link : string) :
  Project.render_project_votes_by_user self user !! link
  = last (votes_on self user link).
Proof.
  unfold Project.render_project_votes_by_user, votes_on.
  etrans; [apply votes_of_proposals|].
  by rewrite lookup_empty, or_last_None.
Qed.

(** Two votes on one proposal by distinct accounts that share the display
    name Alice, with the values Approve then Disapprove: the later one is
    recorded. A vote without comment and a vote of another reviewer leave no
    trace. *)
Example votes_by_user_alice :
  let vote_of name value :=
    {| reviewer := {| display_name := name |}; comment := value |} in
  let mp :=
    {| date_created := Fixture.today;
       web_link := Fixture.link "7";
       votes := [vote_of "Alice" (Some {| vote := "Approve" |});
                 vote_of "Bob" (Some {| vote := "Needs Fixing" |});
                 vote_of "Alice" (Some {| vote := "Disapprove" |});
                 vote_of "Alice" None] |} in
  let self :=
    {| Project.project := Project.project (Fixture.project (Fixture.always []) 8);
       Project.window := 8;
       Project.review_status := [];
       Project.merge_proposals := [mp] |} in
  Project.render_project_votes_by_user self Fixture.alice
  = {[ Fixture.link "7" := "Disapprove" ]}.
Proof. by vm_compute. Qed.

(** ** The project aggregator *)

Section ProjectFacts.

Variable clock : Z.

Lemma in_window_total (window : Z) (date : option datetime) :
  valid_days window → ∃ b, in_window clock window date = Ok b.
Proof.
  intros Hv. destruct date as [d|].
  - rewrite (in_window_present _ _ _ Hv). eauto.
  - rewrite (in_window_absent _ _ Hv). eauto.
Qed.

Lemma Project_status_loop (window : Z) (mps acc : list MergeProposal) :
  valid_days window →
  for_each mps (λ mp project_mps,
      keep ← in_window clock window (date_created mp);
      Ok (Continue (if keep : bool then project_mps ++ [mp]
                    else project_mps))) acc
  = Ok (acc ++ filter (λ mp, in_window clock window (date_created mp)
                             = Ok true) mps).
Proof.
  intros Hv. revert acc. induction mps as [|mp mps IH]; intros acc.
  - simpl. by rewrite app_nil_r.
  - rewrite filter_cons, for_each_cons.
    destruct (in_window_total window (date_created mp) Hv) as [[] Hb].
    + rewrite decide_True by done. rewrite Hb, bind_Ok.
      rewrite IH. by rewrite <- app_assoc.
    + rewrite decide_False by (by rewrite Hb). rewrite Hb, bind_Ok.
      by rewrite IH.
Qed.

Lemma Project_statuses_loop (window : Z)
    (fetched : string → list MergeProposal) (statuses : list string)
    (acc : list MergeProposal) :
  valid_days window →
  for_each statuses (λ status project_mps,
    let mps := fetched status in
    project_mps ← for_each mps (λ mp project_mps,
      keep ← in_window clock window (date_created mp);
      Ok (Continue (if keep : bool then project_mps ++ [mp]
                    else project_mps))) project_mps;
    Ok (Continue project_mps)) acc
  = Ok (acc ++ retained clock window fetched statuses).
Proof.
  intros Hv. revert acc. induction statuses as [|st sts IH]; intros acc.
  - simpl. by rewrite app_nil_r.
  - rewrite for_each_cons. cbv beta zeta.
    rewrite (Project_status_loop _ _ _ Hv), bind_Ok.
    rewrite IH. unfold retained. simpl. by rewrite app_assoc.
Qed.

Lemma Project_render_retained (self : Project.t) :
  valid_days (Project.window self) →
  Project._render_merge_proposals clock self
  = Ok (retained clock (Project.window self)
          (LPProject.getMergeProposals (Project.project self))
          (Project.review_status self)).
Proof.
  intros Hv. unfold Project._render_merge_proposals.
  by rewrite (Project_statuses_loop _ _ _ _ Hv).
Qed.

End ProjectFacts.

(** C4: constructing the project aggregator of a known project with a
    window that [timedelta] represents succeeds, and the merge proposals it
    retains are, for the statuses Needs review, Approved, Rejected, Merged
    in this order, all the fetched proposals whose creation timestamp passes
    [in_window], each status filtered in full. *)
Theorem Project_init_retains (clock : Z) (launchpad : Launchpad.t)
    (project : string) (window : Z) (p : LPProject.t) :
  Launchpad.projects launchpad !! project = Some p →
  valid_days window →
  Project.__init__ clock launchpad project window
  = Ok {| Project.project := p;
          Project.window := window;
          Project.review_status :=
            ["Needs review"; "Approved"; "Rejected"; "Merged"];
          Project.merge_proposals :=
            retained clock window (LPProject.getMergeProposals p)
                     ["Needs review"; "Approved"; "Rejected"; "Merged"] |}.
Proof.
  intros Hp Hv. unfold Project.__init__, getitem. rewrite Hp, bind_Ok.
  cbv zeta. by rewrite Project_render_retained.
Qed.

Lemma Project_init_retains_witness :
  let fetched :=
    Fixture.only "Needs review"
      [Fixture.proposal (Fixture.days_ago 10) (Fixture.link "1");
       Fixture.proposal (Fixture.days_ago 3) (Fixture.link "2");
       Fixture.proposal Fixture.today (Fixture.link "3")] in
  Project.__init__ Fixture.clock (Fixture.launchpad fetched) "demo" 8
  = Ok {| Project.project := Project.project (Fixture.project fetched 8);
          Project.window := 8;
          Project.review_status :=
            ["Needs review"; "Approved"; "Rejected"; "Merged"];
          Project.merge_proposals :=
            retained Fixture.clock 8 fetched
                     ["Needs review"; "Approved"; "Rejected"; "Merged"] |}.
Proof.
  intros fetched.
  apply (Project_init_retains Fixture.clock (Fixture.launchpad fetched)
           "demo" 8 (Project.project (Fixture.project fetched 8))).
  - reflexivity.
  - unfold valid_days, MAX_DELTA_DAYS. lia.
Defined.

(** With a window of 8 days and creation dates 10 days ago, 3 days ago and
    today, the aggregator retains the latter two. *)
Example Project_init_window_8 :
  let fetched :=
    Fixture.only "Needs review"
      [Fixture.proposal (Fixture.days_ago 10) (Fixture.link "1");
       Fixture.proposal (Fixture.days_ago 3) (Fixture.link "2");
       Fixture.proposal Fixture.today (Fixture.link "3")] in
  Project.merge_proposals
    <$> Project.__init__ Fixture.clock (Fixture.launchpad fetched) "demo" 8
  = Ok [Fixture.proposal (Fixture.days_ago 3) (Fixture.link "2");
        Fixture.proposal Fixture.today (Fixture.link "3")].
Proof. by vm_compute. Qed.

(** ** The merge proposals of a user *)

Section ReportFacts.

Variable clock : Z.
Variable self : Report.t.

Lemma passes_true (window : Z) (mp : MergeProposal) :
  passes clock window mp = true
  ↔ in_window clock window (date_created mp) = Ok true.
Proof. unfold passes. apply bool_decide_eq_true. Qed.

Lemma passes_false (window : Z) (mp : MergeProposal) :
  valid_days window →
  passes clock window mp = false
  ↔ in_window clock window (date_created mp) = Ok false.
Proof.
  intros Hv. unfold passes. rewrite bool_decide_eq_false.
  destruct (in_window_total clock window (date_created mp) Hv) as [[] ->];
    naive_solver.
Qed.

Lemma project_of_well_formed (mp : MergeProposal) :
  well_formed mp → ∃ p, project_of (web_link mp) = Some p.
Proof.
  unfold well_formed, project_of. intros H.
  apply lookup_lt_is_Some_2. lia.
Qed.

Lemma project_of_malformed (mp : MergeProposal) :
  ¬ well_formed mp → project_of (web_link mp) = None.
Proof.
  unfold well_formed, project_of. intros H.
  apply lookup_ge_None_2. lia.
Qed.

Lemma collect_out_of_window (mp : MergeProposal)
    (proposals : gmap string (list string)) :
  in_window clock (Report.window self) (date_created mp) = Ok false →
  Report.collect clock self mp proposals = Ok (Break proposals).
Proof. intros H. unfold Report.collect. by rewrite H. Qed.

Lemma collect_in_window (mp : MergeProposal)
    (proposals : gmap string (list string)) :
  in_window clock (Report.window self) (date_created mp) = Ok true →
  Report.collect clock self mp proposals
  = match project_of (web_link mp) with
    | Some p => Ok (Continue (append_at proposals p (web_link mp)))
    | None => Raise IndexError
    end.
Proof.
  intros H. unfold Report.collect. rewrite H, bind_Ok. simpl.
  unfold index. fold (segments (web_link mp)).
  fold (project_of (web_link mp)).
  by destruct (project_of (web_link mp)).
Qed.


Lemma status_loop (mps : list MergeProposal)
    (proposals : gmap string (list string)) :
  valid_days (Report.window self) →
  for_each mps (Report.collect clock self) proposals
  = if decide (Forall well_formed
                 (take_while (passes clock (Report.window self)) mps))
    then Ok (foldl file proposals
               (take_while (passes clock (Report.window self)) mps))
    else Raise IndexError.
Proof.
  intros Hv. revert proposals.
  induction mps as [|mp mps IH]; intros proposals; [done|].
  rewrite for_each_cons. simpl take_while.
  destruct (passes clock (Report.window self) mp) eqn:Hp.
  - apply passes_true in Hp. rewrite (collect_in_window _ _ Hp).
    destruct (decide (well_formed mp)) as [Hw|Hw].
    + destruct (project_of_well_formed _ Hw) as [p Hproj]. rewrite Hproj, IH.
      destruct (decide (Forall well_formed (take_while _ mps))) as [Hf|Hf].
      * rewrite decide_True by (by constructor). cbn [foldl].
        replace (file proposals mp)
          with (append_at proposals p (web_link mp)); [done|].
        unfold file. by rewrite Hproj.
      * rewrite decide_False; [done|]. by inversion 1.
    + rewrite (project_of_malformed _ Hw).
      rewrite decide_False; [done|]. by inversion 1.
  - apply passes_false in Hp; [|done].
    by rewrite (collect_out_of_window _ _ Hp).
Qed.

Lemma statuses_loop (fetched : string → list MergeProposal)
    (statuses : list string) (proposals : gmap string (list string)) :
  valid_days (Report.window self) →
  for_each statuses (λ status proposals,
    let all_mps := fetched status in
    proposals ← for_each all_mps (Report.collect clock self) proposals;
    Ok (Continue proposals)) proposals
  = if decide (Forall well_formed
                 (prefixes clock (Report.window self) fetched statuses))
    then Ok (foldl file proposals
               (prefixes clock (Report.window self) fetched statuses))
    else Raise IndexError.
Proof.
  intros Hv. revert proposals.
  induction statuses as [|st sts IH]; intros proposals; [done|].
  rewrite for_each_cons. cbv beta zeta. rewrite (status_loop _ _ Hv).
  unfold prefixes. cbn [flat_map].
  fold (prefixes clock (Report.window self) fetched sts).
  destruct (decide (Forall well_formed (take_while _ (fetched st))))
    as [Hf|Hf].
  - rewrite bind_Ok, IH.
    destruct (decide (Forall well_formed
                        (prefixes clock (Report.window self) fetched sts)))
      as [Hg|Hg].
    + rewrite decide_True by (by apply Forall_app). by rewrite foldl_app.
    + rewrite decide_False; [done|]. by intros [_ ?]%Forall_app.
  - rewrite bind_Raise.
    rewrite decide_False; [done|]. by intros [? _]%Forall_app.
Qed.

Lemma Report_render_examined :
  valid_days (Report.window self) →
  Report._render_merge_proposals clock self
  = if decide (Forall well_formed (examined clock self))
    then Ok (foldl file ∅ (examined clock self))
    else Raise IndexError.
Proof.
  intros Hv. unfold Report._render_merge_proposals.
  by apply statuses_loop.
Qed.

End ReportFacts.

Lemma foldl_file_lookup (mps : list MergeProposal)
    (proposals : gmap string (list string)) (p : string) :
  Forall well_formed mps →
  default [] (foldl file proposals mps !! p)
  = default [] (proposals !! p) ++ links_of p mps.
Proof.
  intros Hw. revert proposals.
  induction Hw as [|mp mps Hmp _ IH]; intros proposals.
  - simpl. by rewrite app_nil_r.
  - cbn [foldl]. rewrite IH. unfold links_of. rewrite filter_cons.
    destruct (project_of_well_formed mp Hmp) as [q Hq].
    unfold file at 1. unfold append_at.
    destruct (decide (project_of (web_link mp) = Some p)) as [Hp|Hp].
    + rewrite Hp. unfold default at 2. cbn [from_option id].
      rewrite lookup_insert_eq. unfold default at 1. cbn [from_option id].
      rewrite fmap_cons. by rewrite <- app_assoc.
    + rewrite Hq. unfold default at 2. cbn [from_option id].
      by rewrite lookup_insert_ne by congruence.
Qed.



(** With a window of 8 days and the list today, today, 20 days ago, today
    for one status, the first two links are retained and the fourth is
    dropped. *)
Example early_exit_window_8 :
  let a := Fixture.proposal Fixture.today (Fixture.link "1") in
  let b := Fixture.proposal Fixture.today (Fixture.link "2") in
  let old := Fixture.proposal (Fixture.days_ago 20) (Fixture.link "3") in
  let c := Fixture.proposal Fixture.today (Fixture.link "4") in
  in_window Fixture.clock 8 (date_created c) = Ok true
  ∧ ∀ status, status ∈ Report.statuses →
      Report._render_merge_proposals Fixture.clock
        (Fixture.report (Fixture.only status [a; b; old; c]) 8)
      = Ok {[ "demo" := [Fixture.link "1"; Fixture.link "2"] ]}.
Proof.
  split; [by vm_compute|]. intros status Hin.
  unfold Report.statuses in Hin. set_unfold.
  destruct Hin as [->|[->|[->|[->|[->|[->|[->|[->|[]]]]]]]]];
    by vm_compute.
Qed.

(** C9, as stated, fails: a fetched merge proposal whose link has a single
    path segment, created 20 days ago, is passed over without any error
    under a window of 8 days; the report is generated, without it. *)
Lemma malformed_link_outside_window_skipped :
  let bad := Fixture.proposal (Fixture.days_ago 20) "nolink" in
  let self := Fixture.report (Fixture.only "Needs review" [bad]) 8 in
  malformed bad
  ∧ Report._render_merge_proposals Fixture.clock self = Ok ∅
  ∧ Report.generate Fixture.clock self initial
    = (Ok {| Report.merge_proposals := ∅;
             Report.bug_reports := ∅;
             Report.code_reviews := ∅ |}, initial).
Proof.
  split; [vm_compute; lia|]. split; by vm_compute.
Qed.

(** C9 (amended): under a window that [timedelta] represents, the report
    builder's merge-proposal collection raises an index error exactly when
    one of the proposals it examines (a proposal that passes the window
    check, as does every proposal before it in the fetched list of its
    status) has a link of fewer than 5 path segments; the error then aborts
    [generate]. A malformed link of a proposal that is not examined raises
    nothing. *)
Theorem malformed_link_aborts (clock : Z) (self : Report.t) :
  valid_days (Report.window self) →
  (Report._render_merge_proposals clock self = Raise IndexError
   ↔ Exists malformed (examined clock self))
  ∧ (Exists malformed (examined clock self) →
     ∀ σ, Report.generate clock self σ = (Raise IndexError, σ)).
Proof.
  intros Hv.
  assert (Hiff : Report._render_merge_proposals clock self = Raise IndexError
                 ↔ Exists malformed (examined clock self)).
  { rewrite (Report_render_examined _ _ Hv).
    destruct (decide (Forall well_formed (examined clock self))) as [Hf|Hf].
    - split; [done|]. intros Hex. exfalso.
      apply Exists_exists in Hex as (mp & Hin & Hbad).
      rewrite Forall_forall in Hf. specialize (Hf mp Hin).
      unfold malformed, well_formed in *. lia.
    - split; [|done]. intros _.
      apply not_Forall_Exists in Hf; [|apply _].
      eapply Exists_impl; [exact Hf|].
      intros mp. unfold malformed, well_formed. simpl. lia. }
  split; [done|]. intros Hex σ. apply Hiff in Hex.
  unfold Report.generate, mbind, M_bind, lift. by rewrite Hex.
Qed.

Lemma malformed_link_aborts_witness :
  let bad := Fixture.proposal Fixture.today "nolink" in
  let self := Fixture.report (Fixture.only "Needs review" [bad]) 8 in
  (Report._render_merge_proposals Fixture.clock self = Raise IndexError
   ↔ Exists malformed (examined Fixture.clock self))
  ∧ (Exists malformed (examined Fixture.clock self) →
     ∀ σ, Report.generate Fixture.clock self σ = (Raise IndexError, σ)).
Proof.
  intros bad self. apply (malformed_link_aborts Fixture.clock self).
  unfold valid_days, MAX_DELTA_DAYS. simpl. lia.
Defined.

(** A proposal created today whose link has a single path segment aborts
    the report. *)
Example malformed_link_today :
  let bad := Fixture.proposal Fixture.today "nolink" in
  let self := Fixture.report (Fixture.only "Needs review" [bad]) 8 in
  Exists malformed (examined Fixture.clock self)
  ∧ Report.generate Fixture.clock self initial = (Raise IndexError, initial).
Proof.
  split; [|by vm_compute].
  vm_compute. apply Exists_cons_hd. vm_compute. lia.
Qed.

(** ** No deduplication across statuses *)

Lemma fmap_flat_map {A B C : Type} (g : B → C) (f : A → list B)
    (xs : list A) :
  g <$> flat_map f xs = flat_map (λ x, g <$> f x) xs.
Proof.
  induction xs as [|x xs IH]; [done|]. simpl. by rewrite fmap_app, IH.
Qed.

Lemma filter_flat_map {A B : Type} (P : B → Prop) `{!∀ b, Decision (P b)}
    (f : A → list B) (xs : list A) :
  filter P (flat_map f xs) = flat_map (λ x, filter P (f x)) xs.
Proof.
  induction xs as [|x xs IH]; [done|]. simpl. by rewrite filter_app, IH.
Qed.

(** C10, as stated, fails for the report builder: a proposal created today
    passes the window check, yet it contributes no entry when it comes
    after a proposal created 20 days ago in the list of its status. *)
Lemma in_window_proposal_after_old_one_dropped :
  let old := Fixture.proposal (Fixture.days_ago 20) (Fixture.link "1") in
  let new := Fixture.proposal Fixture.today (Fixture.link "2") in
  let self := Fixture.report (Fixture.only "Needs review" [old; new]) 8 in
  in_window Fixture.clock 8 (date_created new) = Ok true
  ∧ Report._render_merge_proposals Fixture.clock self = Ok ∅.
Proof. split; by vm_compute. Qed.

(** C10 (amended): neither collection deduplicates across status fetches.
    Under windows that [timedelta] represents and well-formed examined
    links, the project aggregator's list is the concatenation, status by
    status, of the fetched proposals that pass the window check, and the
    report builder's list for a project is the concatenation, status by
    status, of the links of the examined proposals (those before the first
    out-of-window proposal of their status) that name the project. So a
    proposal retained under two statuses has its link at least twice in
    the aggregator's list, and a proposal examined under two statuses has
    its link at least twice in the report. *)
Theorem no_deduplication (clock : Z) (project : Project.t)
    (report : Report.t) :
  valid_days (Project.window project) →
  valid_days (Report.window report) →
  Forall well_formed (examined clock report) →
  ∃ mps proposals,
    Project._render_merge_proposals clock project = Ok mps
    ∧ Report._render_merge_proposals clock report = Ok proposals
    ∧ mps = retained clock (Project.window project)
              (LPProject.getMergeProposals (Project.project project))
              (Project.review_status project)
    ∧ (∀ p, default [] (proposals !! p) = links_of p (examined clock report))
    ∧ (∀ mp i j s1 s2,
         i ≠ j →
         Project.review_status project !! i = Some s1 →
         Project.review_status project !! j = Some s2 →
         mp ∈ LPProject.getMergeProposals (Project.project project) s1 →
         mp ∈ LPProject.getMergeProposals (Project.project project) s2 →
         in_window clock (Project.window project) (date_created mp)
         = Ok true →
         (2 ≤ length (filter (λ l, l = web_link mp) (web_link <$> mps)))%nat)
    ∧ (∀ mp p i j s1 s2,
         i ≠ j →
         Report.statuses !! i = Some s1 →
         Report.statuses !! j = Some s2 →
         mp ∈ take_while (passes clock (Report.window report))
                (LPUser.getMergeProposals (Report.user report) s1) →
         mp ∈ take_while (passes clock (Report.window report))
                (LPUser.getMergeProposals (Report.user report) s2) →
         project_of (web_link mp) = Some p →
         (2 ≤ length (filter (λ l, l = web_link mp)
                        (default [] (proposals !! p))))%nat).
Proof.
  intros Hvp Hvr Hwf.
  eexists _, _. split; [by apply Project_render_retained|].
  split.
  { rewrite (Report_render_examined _ _ Hvr). by rewrite decide_True. }
  split; [done|].
  assert (Hlinks : ∀ p, default [] (foldl file ∅ (examined clock report) !! p)
                        = links_of p (examined clock report)).
  { intros p. by rewrite (foldl_file_lookup _ _ _ Hwf), lookup_empty. }
  split; [done|]. split.
  - intros mp i j s1 s2 Hij Hi Hj H1 H2 Hin.
    unfold retained. rewrite fmap_flat_map.
    eapply (flat_map_Exists_twice _ _ _ i j); [done..| |];
      apply Exists_exists; exists (web_link mp); (split; [|done]);
      apply list_elem_of_fmap; exists mp; (split; [done|]);
      by apply list_elem_of_filter.
  - intros mp p i j s1 s2 Hij Hi Hj H1 H2 Hp.
    rewrite Hlinks. unfold links_of, examined, prefixes.
    rewrite filter_flat_map, fmap_flat_map.
    eapply (flat_map_Exists_twice _ _ _ i j); [done..| |];
      apply Exists_exists; exists (web_link mp); (split; [|done]);
      apply list_elem_of_fmap; exists mp; (split; [done|]);
      by apply list_elem_of_filter.
Qed.

Lemma no_deduplication_witness :
  let mp := Fixture.proposal Fixture.today (Fixture.link "1") in
  let project := Fixture.project (Fixture.always [mp]) 8 in
  let report := Fixture.report (Fixture.always [mp]) 8 in
  ∃ mps proposals,
    Project._render_merge_proposals Fixture.clock project = Ok mps
    ∧ Report._render_merge_proposals Fixture.clock report = Ok proposals
    ∧ mps = retained Fixture.clock (Project.window project)
              (LPProject.getMergeProposals (Project.project project))
              (Project.review_status project)
    ∧ (∀ p, default [] (proposals !! p)
            = links_of p (examined Fixture.clock report))
    ∧ (∀ mp i j s1 s2,
         i ≠ j →
         Project.review_status project !! i = Some s1 →
         Project.review_status project !! j = Some s2 →
         mp ∈ LPProject.getMergeProposals (Project.project project) s1 →
         mp ∈ LPProject.getMergeProposals (Project.project project) s2 →
         in_window Fixture.clock (Project.window project) (date_created mp)
         = Ok true →
         (2 ≤ length (filter (λ l, l = web_link mp) (web_link <$> mps)))%nat)
    ∧ (∀ mp p i j s1 s2,
         i ≠ j →
         Report.statuses !! i = Some s1 →
         Report.statuses !! j = Some s2 →
         mp ∈ take_while (passes Fixture.clock (Report.window report))
                (LPUser.getMergeProposals (Report.user report) s1) →
         mp ∈ take_while (passes Fixture.clock (Report.window report))
                (LPUser.getMergeProposals (Report.user report) s2) →
         project_of (web_link mp) = Some p →
         (2 ≤ length (filter (λ l, l = web_link mp)
                        (default [] (proposals !! p))))%nat).
Proof.
  intros mp project report.
  apply (no_deduplication Fixture.clock project report).
  - unfold valid_days, MAX_DELTA_DAYS. simpl. lia.
  - unfold valid_days, MAX_DELTA_DAYS. simpl. lia.
  - vm_compute. repeat constructor.
Defined.

(** A provider that returns one proposal, created today, under every
    status: the aggregator keeps it four times, the report lists its link
    eight times. *)
Example same_proposal_under_every_status :
  let mp := Fixture.proposal Fixture.today (Fixture.link "1") in
  Project._render_merge_proposals Fixture.clock
    (Fixture.project (Fixture.always [mp]) 8)
  = Ok [mp; mp; mp; mp]
  ∧ Report._render_merge_proposals Fixture.clock
      (Fixture.report (Fixture.always [mp]) 8)
    = Ok {[ "demo" := replicate 8 (Fixture.link "1") ]}.
Proof. split; by vm_compute. Qed.

(** ** The caching proxy *)

Section ProxyFacts.

Implicit Types (σ : state) (self : nat) (attr : string) (w : instance).

Lemma getattr_cached σ self w attr x :
  heap σ !! self = Some w →
  attr ≠ "lpObj" →
  cached w !! attr = Some x →
  getattr (Wrapped self) attr σ = (Ok x, σ).
Proof.
  intros Hself Hattr Hx. apply String.eqb_neq in Hattr.
  unfold getattr, mbind, M_bind, deref. by rewrite Hself, Hattr, Hx.
Qed.

Lemma getattr_miss σ self w attr r :
  heap σ !! self = Some w → attr ≠ "lpObj" → cached w !! attr = None →
  getattr_remote (lpObj w) attr = Ok r →
  getattr (Wrapped self) attr σ
  = (Ok (after_miss σ self attr r).1, (after_miss σ self attr r).2).
Proof.
  intros Hself Hattr Hx Hr. apply String.eqb_neq in Hattr.
  unfold getattr, __getattr__, mbind, M_bind, deref, after_miss.
  rewrite Hself, Hattr, Hx. unfold fetch. simpl. rewrite Hself, Hr.
  by destruct (String.eqb (class_name r) "Entry").
Qed.

Lemma getattr_miss_fail σ self w attr e :
  heap σ !! self = Some w → attr ≠ "lpObj" → cached w !! attr = None →
  getattr_remote (lpObj w) attr = Raise e →
  getattr (Wrapped self) attr σ
  = (Raise e,
     {| heap := heap σ; next := next σ; fetches := fetches σ ++ [attr] |}).
Proof.
  intros Hself Hattr Hx Hr. apply String.eqb_neq in Hattr.
  unfold getattr, __getattr__, mbind, M_bind, deref.
  rewrite Hself, Hattr, Hx. unfold fetch. simpl. by rewrite Hself, Hr.
Qed.




Lemma init_keeps σ o :
  fresh_from_next σ →
  keeps σ (LPWrap.__init__ o σ).2 ∧ fresh_from_next (LPWrap.__init__ o σ).2.
Proof.
  intros Hfresh. unfold LPWrap.__init__. simpl. split.
  - split; [simpl; lia|]. simpl. intros l w Hl. exists w.
    split; [|done]. rewrite lookup_insert_ne; [done|].
    intros <-. rewrite Hfresh in Hl; [done|lia].
  - intros l Hl. simpl in *. rewrite lookup_insert_ne by lia.
    apply Hfresh. lia.
Qed.





End ProxyFacts.


(** An attribute that the remote object does not provide is requested again
    at every access: nothing is cached when the request fails. *)
Lemma missing_attribute_requested_again :
  let σ := (LPWrap.__init__ Fixture.bug initial).2 in
  getattr (Wrapped 0) "owner" σ
  = (Raise AttributeError,
     {| heap := heap σ; next := next σ; fetches := ["owner"] |})
  ∧ fetches (run [Access (Wrapped 0) "owner"; Access (Wrapped 0) "owner"] σ)
    = ["owner"; "owner"].
Proof. split; by vm_compute. Qed.



(** Reading [task.bug.title] twice: one request per hop, [bug] then [title],
    and the same values both times; the nested bug is the same proxy. *)
Example task_bug_title_twice :
  ∃ σ, Fixture.title_twice initial
       = (Ok (Wrapped 1, Raw (PyStr "crash on start"),
              Wrapped 1, Raw (PyStr "crash on start")), σ)
       ∧ fetches σ = ["bug"; "title"].
Proof. eexists. split; by vm_compute. Qed.

(** ** The serializer *)

Section SerializerFacts.

Context {report : Type}.
Variable yaml_dump : report → bool → string.
Variable json_dumps : report → string.

(** C8: [output_data] raises [NotImplementedError] for every format whose
    lower-case form is neither yaml nor json, and for a format whose
    lower-case form is yaml or json, whatever its letter case, it returns
    the text of the encoder without error: [yaml.dump] in block style
    ([default_flow_style=False]), or [json.dumps] with its defaults. *)
Theorem output_data_formats (r : report) (format : string) :
  (Str.lower format = "yaml" →
   output_data yaml_dump json_dumps r format = Ok (yaml_dump r false))
  ∧ (Str.lower format = "json" →
     output_data yaml_dump json_dumps r format = Ok (json_dumps r))
  ∧ (Str.lower format ≠ "yaml" → Str.lower format ≠ "json" →
     output_data yaml_dump json_dumps r format = Raise NotImplementedError).
Proof.
  unfold output_data. repeat split.
  - by intros ->.
  - by intros ->.
  - intros Hy Hj. apply String.eqb_neq in Hy, Hj. by rewrite Hy, Hj.
Qed.

Example output_data_csv (r : report) :
  output_data yaml_dump json_dumps r "csv" = Raise NotImplementedError.
Proof. done. Qed.

Example output_data_mixed_case (r : report) :
  output_data yaml_dump json_dumps r "YAML" = Ok (yaml_dump r false)
  ∧ output_data yaml_dump json_dumps r "Yaml" = Ok (yaml_dump r false)
  ∧ output_data yaml_dump json_dumps r "JSON" = Ok (json_dumps r)
  ∧ output_data yaml_dump json_dumps r "jSoN" = Ok (json_dumps r).
Proof. done. Qed.

End SerializerFacts.

(** * Further properties *)

(** ** More on the time window and the two collectors *)

(** X1: [in_window] raises exactly when the window is not a day count that
    [timedelta] represents, whatever the timestamp, and the exception is
    then [OverflowError]; for a representable window it always answers, also
    for timezone-aware timestamps. *)
Theorem in_window_raises_iff (clock window : Z) (date : option datetime) :
  (valid_days window → ∃ b, in_window clock window date = Ok b)
  ∧ (¬ valid_days window → in_window clock window date = Raise OverflowError).
Proof. split; [apply in_window_total | apply in_window_overflow]. Qed.

(** X2: [in_window] is monotone: a timestamp that is in the window stays in
    it for every larger representable window, and every timestamp with the
    same or a later wall-clock reading is in the window too, whatever its
    timezone. *)
Theorem in_window_monotone (clock W W' : Z) (T T' : datetime) :
  W ≤ W' → valid_days W' →
  naive T ≤ naive T' →
  in_window clock W (Some T) = Ok true →
  in_window clock W' (Some T') = Ok true.
Proof.
  intros HW Hv HT H. apply in_window_true_iff in H as [_ H].
  apply in_window_true_iff. split; [done|]. unfold us_per_day in *. lia.
Qed.

Lemma in_window_monotone_witness :
  in_window 0 10 (at_time (-1) (Some 120)) = Ok true.
Proof.
  apply (in_window_monotone 0 8 10 {| naive := -5; tzinfo := None |}
           {| naive := -1; tzinfo := Some 120 |}).
  - lia.
  - unfold valid_days, MAX_DELTA_DAYS. lia.
  - simpl. lia.
  - reflexivity.
Defined.

Section NewestFirst.
Variable clock : Z.
Variable self : Report.t.

Lemma not_older_passes (a b : MergeProposal) :
  valid_days (Report.window self) →
  not_older a b →
  passes clock (Report.window self) b = true →
  passes clock (Report.window self) a = true.
Proof.
  intros Hv Hab Hb. unfold not_older in Hab.
  destruct (date_created a) as [da|] eqn:Ha; [|done].
  destruct (date_created b) as [db|] eqn:Hb'; [|done].
  apply passes_true in Hb. apply passes_true.
  rewrite Ha. rewrite Hb' in Hb.
  apply in_window_true_iff in Hb as [_ Hb].
  apply in_window_true_iff. split; [done|lia].
Qed.

Lemma filter_none {A : Type} (P : A → Prop) `{!∀ x, Decision (P x)}
    (l : list A) :
  Forall (λ x, ¬ P x) l → filter P l = [].
Proof.
  induction 1 as [|x l Hx _ IH]; [done|].
  rewrite filter_cons. by rewrite decide_False.
Qed.

Lemma take_while_all {A : Type} (p : A → bool) (l : list A) :
  Forall (λ x, p x = true) l → take_while p l = l.
Proof. induction 1 as [|x l Hx _ IH]; [done|]. simpl. by rewrite Hx, IH. Qed.

Lemma take_while_filter_newest_first (mps : list MergeProposal) :
  valid_days (Report.window self) →
  newest_first mps →
  take_while (passes clock (Report.window self)) mps
  = filter (λ mp, passes clock (Report.window self) mp) mps.
Proof.
  intros Hv Hs. induction Hs as [|mp mps Hs IH Hall]; [done|].
  simpl. rewrite filter_cons.
  destruct (passes clock (Report.window self) mp) eqn:Hp.
  - rewrite decide_True by done. by rewrite IH.
  - rewrite decide_False by (by intros ?).
    symmetry. apply filter_none.
    eapply Forall_impl; [exact Hall|]. intros b Hb Hpb. simpl in *.
    apply Is_true_true in Hpb.
    by rewrite (not_older_passes mp b Hv Hb Hpb) in Hp.
Qed.

Lemma status_loop_newest_first (mps : list MergeProposal)
    (proposals : gmap string (list string)) :
  valid_days (Report.window self) →
  newest_first mps →
  for_each mps (Report.collect clock self) proposals
  = for_each (filter (λ mp, passes clock (Report.window self) mp) mps)
      (Report.collect clock self) proposals.
Proof.
  intros Hv Hs. rewrite !(status_loop _ _ _ _ Hv).
  rewrite (take_while_all _ (filter _ mps)).
  - by rewrite take_while_filter_newest_first.
  - apply Forall_forall. intros mp [Hp _]%list_elem_of_filter.
    by apply Is_true_true.
Qed.

End NewestFirst.

(** X3: when the provider returns every status list newest first (creation
    dates known and not increasing), the early exit of the report builder
    loses nothing: its merge-proposal collection gives the same outcome as
    over a provider whose lists were filtered by the window check. *)
Theorem early_exit_is_filter_when_newest_first (clock : Z) (self : Report.t) :
  valid_days (Report.window self) →
  (∀ status,
     newest_first (LPUser.getMergeProposals (Report.user self) status)) →
  Report._render_merge_proposals clock self
  = Report._render_merge_proposals clock
      (with_fetched self (λ status,
         filter (λ mp, passes clock (Report.window self) mp)
                (LPUser.getMergeProposals (Report.user self) status))).
Proof.
  intros Hv Hs. unfold Report._render_merge_proposals.
  apply for_each_ext. intros st proposals. cbv beta zeta.
  change (Report.collect clock (with_fetched self _))
    with (Report.collect clock self).
  f_equal. simpl. by apply status_loop_newest_first.
Qed.

Lemma early_exit_is_filter_when_newest_first_witness :
  let a := Fixture.proposal Fixture.today (Fixture.link "1") in
  let b := Fixture.proposal (Fixture.days_ago 3) (Fixture.link "2") in
  let c := Fixture.proposal (Fixture.days_ago 20) (Fixture.link "3") in
  let self := Fixture.report (Fixture.always [a; b; c]) 8 in
  Report._render_merge_proposals Fixture.clock self
  = Report._render_merge_proposals Fixture.clock
      (with_fetched self (λ status,
         filter (λ mp, passes Fixture.clock (Report.window self) mp)
                (LPUser.getMergeProposals (Report.user self) status))).
Proof.
  intros a b c self.
  apply (early_exit_is_filter_when_newest_first Fixture.clock self).
  - unfold valid_days, MAX_DELTA_DAYS. simpl. lia.
  - intros status. simpl. unfold Fixture.always, newest_first.
    repeat constructor; vm_compute; discriminate.
Defined.

(** X4: the constructor of the report builder raises [KeyError] for an
    unknown user, and [OverflowError] for a known user when the window is
    not representable or [now − window] leaves the years 1 to 9999.
    Otherwise it succeeds with [since = now − window days], and the
    merge-proposal collection of the builder it returns either succeeds or
    raises [IndexError], nothing else. *)
Theorem Report_init_outcome (clock : Z) (launchpad : Launchpad.t)
    (user : string) (projects : list Project.t) (window : Z) :
  match Report.__init__ clock launchpad user projects window with
  | Ok self =>
      Launchpad.people launchpad !! user = Some (Report.user self)
      ∧ valid_days window
      ∧ 0 ≤ clock - window * us_per_day < MAX_DATETIME
      ∧ Report.window self = window
      ∧ Report.projects self = projects
      ∧ Report.since self = {| naive := clock - window * us_per_day;
                               tzinfo := None |}
      ∧ (Report._render_merge_proposals clock self = Raise IndexError
         ∨ ∃ proposals,
             Report._render_merge_proposals clock self = Ok proposals)
  | Raise e =>
      (e = KeyError ∧ Launchpad.people launchpad !! user = None)
      ∨ (e = OverflowError
         ∧ is_Some (Launchpad.people launchpad !! user)
         ∧ ¬ (valid_days window
              ∧ 0 ≤ clock - window * us_per_day < MAX_DATETIME))
  end.
Proof.
  unfold Report.__init__, getitem.
  destruct (Launchpad.people launchpad !! user) as [u|] eqn:Hu;
    [rewrite bind_Ok | by left].
  destruct (valid_days_dec window) as [Hv|Hv].
  - rewrite (timedelta_days_valid _ Hv), bind_Ok.
    unfold datetime_sub_delta, UTCNOW, datetime_now. cbn [naive tzinfo].
    destruct (0 <=? clock - window * us_per_day) eqn:Hlo;
      destruct (clock - window * us_per_day <? MAX_DATETIME) eqn:Hhi;
      cbn [andb]; rewrite ?bind_Ok, ?bind_Raise.
    + apply Z.leb_le in Hlo. apply Z.ltb_lt in Hhi.
      repeat (split; [done|]).
      match goal with |- context [Report._render_merge_proposals _ ?s] =>
        pose proof (Report_render_examined clock s Hv) as Hr end.
      destruct (decide _) in Hr; [right; eauto | by left].
    + apply Z.ltb_ge in Hhi. right. repeat split; [eauto|]. lia.
    + apply Z.leb_gt in Hlo. right. repeat split; [eauto|]. lia.
    + apply Z.leb_gt in Hlo. right. repeat split; [eauto|]. lia.
  - rewrite (timedelta_days_overflow _ Hv), bind_Raise.
    right. repeat split; [eauto|]. tauto.
Qed.

Section ProjectEdge.
Variable clock : Z.

Lemma Project_status_loop_overflow (window : Z)
    (mps acc : list MergeProposal) :
  ¬ valid_days window →
  for_each mps (λ mp project_mps,
      keep ← in_window clock window (date_created mp);
      Ok (Continue (if keep : bool then project_mps ++ [mp]
                    else project_mps))) acc
  = match mps with
    | [] => Ok acc
    | _ :: _ => Raise OverflowError
    end.
Proof.
  intros Hv. destruct mps as [|mp mps]; [done|].
  by rewrite for_each_cons, (in_window_overflow _ _ _ Hv), bind_Raise.
Qed.

Lemma Project_statuses_loop_overflow (window : Z)
    (fetched : string → list MergeProposal) (statuses : list string)
    (acc : list MergeProposal) :
  ¬ valid_days window →
  for_each statuses (λ status project_mps,
    let mps := fetched status in
    project_mps ← for_each mps (λ mp project_mps,
      keep ← in_window clock window (date_created mp);
      Ok (Continue (if keep : bool then project_mps ++ [mp]
                    else project_mps))) project_mps;
    Ok (Continue project_mps)) acc
  = if forallb (λ status, bool_decide (length (fetched status) = 0%nat))
               statuses
    then Ok acc else Raise OverflowError.
Proof.
  intros Hv. revert acc.
  induction statuses as [|st sts IH]; intros acc; [done|].
  rewrite for_each_cons. cbv beta zeta.
  rewrite (Project_status_loop_overflow _ _ _ Hv). cbn [forallb].
  destruct (fetched st) as [|mp mps]; simpl.
  - apply IH.
  - done.
Qed.

End ProjectEdge.

(** X5: with a window that [timedelta] does not represent, constructing
    the aggregator of a known project raises [OverflowError] as soon as one
    of the four status fetches returns a proposal, and succeeds with an
    empty list when all four fetches are empty. *)
Theorem Project_init_window_out_of_range (clock : Z) (launchpad : Launchpad.t)
    (project : string) (window : Z) (p : LPProject.t) :
  Launchpad.projects launchpad !! project = Some p →
  ¬ valid_days window →
  ((∀ status, status ∈ ["Needs review"; "Approved"; "Rejected"; "Merged"] →
      LPProject.getMergeProposals p status = []) →
   Project.merge_proposals
     <$> Project.__init__ clock launchpad project window = Ok [])
  ∧ (∀ status, status ∈ ["Needs review"; "Approved"; "Rejected"; "Merged"] →
       LPProject.getMergeProposals p status ≠ [] →
       Project.__init__ clock launchpad project window = Raise OverflowError).
Proof.
  intros Hp Hv. unfold Project.__init__, getitem. rewrite Hp, bind_Ok.
  cbv zeta. unfold Project._render_merge_proposals.
  cbn [Project.review_status Project.project Project.window].
  rewrite (Project_statuses_loop_overflow _ _ _ _ _ Hv).
  split.
  - intros Hempty.
    rewrite (proj2 (forallb_forall _ _)); [done|].
    intros st Hst%list_elem_of_In. apply bool_decide_eq_true.
    by rewrite (Hempty st Hst).
  - intros st Hst Hne.
    destruct (forallb _ _) eqn:Hall; [|done]. exfalso.
    rewrite forallb_forall in Hall.
    apply list_elem_of_In in Hst. specialize (Hall st Hst).
    apply bool_decide_eq_true in Hall.
    by destruct (LPProject.getMergeProposals p st).
Qed.

Lemma Project_init_window_out_of_range_witness :
  let fetched :=
    Fixture.only "Merged" [Fixture.proposal Fixture.today (Fixture.link "1")] in
  let p := Project.project (Fixture.project fetched 1000000000) in
  ((∀ status, status ∈ ["Needs review"; "Approved"; "Rejected"; "Merged"] →
      LPProject.getMergeProposals p status = []) →
   Project.merge_proposals
     <$> Project.__init__ Fixture.clock (Fixture.launchpad fetched) "demo"
           1000000000 = Ok [])
  ∧ (∀ status, status ∈ ["Needs review"; "Approved"; "Rejected"; "Merged"] →
       LPProject.getMergeProposals p status ≠ [] →
       Project.__init__ Fixture.clock (Fixture.launchpad fetched) "demo"
         1000000000 = Raise OverflowError).
Proof.
  intros fetched p.
  apply (Project_init_window_out_of_range Fixture.clock
           (Fixture.launchpad fetched) "demo" 1000000000 p).
  - reflexivity.
  - unfold valid_days, MAX_DELTA_DAYS. lia.
Defined.

Lemma elem_of_retained (clock window : Z)
    (fetched : string → list MergeProposal) (statuses : list string)
    (mp : MergeProposal) :
  mp ∈ retained clock window fetched statuses
  ↔ ∃ status, status ∈ statuses ∧ mp ∈ fetched status
              ∧ in_window clock window (date_created mp) = Ok true.
Proof.
  unfold retained. rewrite list_elem_of_In, in_flat_map. split.
  - intros (st & Hst & Hin).
    apply list_elem_of_In, list_elem_of_filter in Hin as [Hw Hin].
    exists st. by rewrite list_elem_of_In.
  - intros (st & Hst & Hin & Hw). exists st.
    split; [by apply list_elem_of_In|].
    by apply list_elem_of_In, list_elem_of_filter.
Qed.

(** X6: every merge proposal that a constructed aggregator retains was
    fetched under one of its four statuses and has a known creation date at
    or after [now − window days]; a proposal without creation date is never
    retained. *)
Theorem Project_retained_in_window (clock : Z) (launchpad : Launchpad.t)
    (project : string) (window : Z) (self : Project.t) (mp : MergeProposal) :
  Project.__init__ clock launchpad project window = Ok self →
  mp ∈ Project.merge_proposals self →
  (∃ status, status ∈ ["Needs review"; "Approved"; "Rejected"; "Merged"]
             ∧ mp ∈ LPProject.getMergeProposals (Project.project self) status)
  ∧ ∃ d, date_created mp = Some d ∧ clock - window * us_per_day ≤ naive d.
Proof.
  intros Hinit Hmp. unfold Project.__init__, getitem in Hinit.
  destruct (Launchpad.projects launchpad !! project) as [p|] eqn:Hp; [|done].
  rewrite bind_Ok in Hinit. cbv zeta in Hinit.
  destruct (valid_days_dec window) as [Hv|Hv].
  - rewrite Project_render_retained, bind_Ok in Hinit by done.
    cbn [Project.review_status Project.project Project.window] in Hinit.
    assert (Hm : Project.merge_proposals self
                 = retained clock window (LPProject.getMergeProposals p)
                     ["Needs review"; "Approved"; "Rejected"; "Merged"])
      by (by destruct self; simplify_eq).
    assert (Hq : Project.project self = p) by (by destruct self; simplify_eq).
    rewrite Hm in Hmp. rewrite Hq.
    apply elem_of_retained in Hmp as (st & Hst & Hin & Hw).
    split; [by exists st|].
    destruct (date_created mp) as [d|];
      [|by rewrite (in_window_absent _ _ Hv) in Hw].
    exists d. split; [done|]. by apply in_window_true_iff in Hw as [_ ?].
  - exfalso. unfold Project._render_merge_proposals in Hinit.
    cbn [Project.review_status Project.project Project.window] in Hinit.
    rewrite (Project_statuses_loop_overflow _ _ _ _ _ Hv) in Hinit.
    destruct (forallb _ _); [|done]. rewrite bind_Ok in Hinit.
    injection Hinit as <-. by apply elem_of_nil in Hmp.
Qed.

Lemma Project_retained_in_window_witness :
  let mp := Fixture.proposal (Fixture.days_ago 3) (Fixture.link "2") in
  let fetched :=
    Fixture.only "Approved"
      [Fixture.proposal (Fixture.days_ago 10) (Fixture.link "1"); mp] in
  let self :=
    {| Project.project := Project.project (Fixture.project fetched 8);
       Project.window := 8;
       Project.review_status :=
         ["Needs review"; "Approved"; "Rejected"; "Merged"];
       Project.merge_proposals := [mp] |} in
  (∃ status, status ∈ ["Needs review"; "Approved"; "Rejected"; "Merged"]
             ∧ mp ∈ LPProject.getMergeProposals (Project.project self) status)
  ∧ ∃ d, date_created mp = Some d
         ∧ Fixture.clock - 8 * us_per_day ≤ naive d.
Proof.
  intros mp fetched self.
  apply (Project_retained_in_window Fixture.clock (Fixture.launchpad fetched)
           "demo" 8 self mp).
  - vm_compute. reflexivity.
  - apply list_elem_of_here.
Defined.

(** ** More on the votes and the report *)

(** X7: every vote that [render_project_votes_by_user] records was cast:
    its link is the link of a retained merge proposal, and its value is the
    value of a comment of a vote on that proposal by a reviewer with the
    user's display name. *)
Theorem recorded_vote_was_cast (self : Project.t) (user : Person)
    (link value : string) :
  Project.render_project_votes_by_user self user !! link = Some value →
  ∃ mp v c,
    mp ∈ Project.merge_proposals self
    ∧ web_link mp = link
    ∧ v ∈ votes mp
    ∧ comment v = Some c
    ∧ vote c = value
    ∧ display_name (reviewer v) = display_name user.
Proof.
  unfold Project.render_project_votes_by_user.
  rewrite (votes_of_proposals user), lookup_empty, or_last_None.
  intros Hlast%last_Some_elem_of.
  apply list_elem_of_In, in_flat_map in Hlast as (mp & Hmp & Hin).
  destruct (decide (web_link mp = link)) as [Hl|]; [|done].
  apply list_elem_of_In in Hin. unfold counted_votes in Hin.
  apply list_elem_of_omap in Hin as (v & Hv & Hc).
  destruct (comment v) as [c|] eqn:Hcomment; [|done].
  destruct (decide (display_name (reviewer v) = display_name user)); [|done].
  exists mp, v, c. injection Hc as Hc. by rewrite list_elem_of_In.
Qed.

Lemma recorded_vote_was_cast_witness :
  let vote_of name value :=
    {| reviewer := {| display_name := name |}; comment := value |} in
  let mp :=
    {| date_created := Fixture.today;
       web_link := Fixture.link "7";
       votes := [vote_of "Alice" (Some {| vote := "Approve" |})] |} in
  let self :=
    {| Project.project :=
         Project.project (Fixture.project (Fixture.always []) 8);
       Project.window := 8;
       Project.review_status := [];
       Project.merge_proposals := [mp] |} in
  ∃ mp v c,
    mp ∈ Project.merge_proposals self
    ∧ web_link mp = Fixture.link "7"
    ∧ v ∈ votes mp
    ∧ comment v = Some c
    ∧ vote c = "Approve"
    ∧ display_name (reviewer v) = display_name Fixture.alice.
Proof.
  intros vote_of mp self.
  apply (recorded_vote_was_cast self Fixture.alice (Fixture.link "7")
           "Approve").
  vm_compute. reflexivity.
Defined.

Lemma reviews_lookup (user : Person) (projects : list Project.t)
    (acc : gmap string (gmap string string)) (name : string) :
  foldl (λ reviews project,
           <[Project.name project :=
               Project.render_project_votes_by_user project user]> reviews)
        acc projects !! name
  = or_last (acc !! name)
      ((λ project, Project.render_project_votes_by_user project user)
         <$> filter (λ project, Project.name project = name) projects).
Proof.
  revert acc. induction projects as [|p ps IH]; intros acc; [done|].
  cbn [foldl]. rewrite IH, filter_cons.
  destruct (decide (Project.name p = name)) as [<-|Hne].
  - rewrite fmap_cons, or_last_cons. by rewrite lookup_insert_eq.
  - by rewrite lookup_insert_ne.
Qed.

(** X8: a report that [generate] returns holds the merge-proposal
    collection and the bug reports, and its code reviews have, for every
    name, the votes of the last supplied aggregator of that name, and no
    entry for a name that no supplied aggregator has: every supplied
    project appears, also with an empty map of votes. *)
Theorem generate_assembles (clock : Z) (self : Report.t) (σ σ' : state)
    (r : Report.UserReport) :
  Report.generate clock self σ = (Ok r, σ') →
  Report._render_merge_proposals clock self = Ok (Report.merge_proposals r)
  ∧ Report._render_reported clock self σ = (Ok (Report.bug_reports r), σ')
  ∧ ∀ name,
      Report.code_reviews r !! name
      = last ((λ project,
                 Project.render_project_votes_by_user project
                   (LPUser.person (Report.user self)))
              <$> filter (λ project, Project.name project = name)
                         (Report.projects self)).
Proof.
  unfold Report.generate, mbind, M_bind, lift, mret, M_ret.
  destruct (Report._render_merge_proposals clock self) as [mps|e]; [|done].
  destruct (Report._render_reported clock self σ) as [[bugs|e] σ1]; [|done].
  intros [= <- <-]. cbn [Report.merge_proposals Report.bug_reports
    Report.code_reviews].
  repeat split. intros name.
  by rewrite reviews_lookup, lookup_empty, or_last_None.
Qed.

Lemma for_each_invariant {A S : Type} (Inv : S → Prop) (xs : list A)
    (body : A → S → result (flow S)) (s s' : S) :
  (∀ x s s', Inv s → body x s = Ok (Continue s') ∨ body x s = Ok (Break s') →
             Inv s') →
  Inv s → for_each xs body s = Ok s' → Inv s'.
Proof.
  intros Hbody. revert s. induction xs as [|x xs IH]; intros s Hs.
  - by intros [= <-].
  - rewrite for_each_cons. destruct (body x s) as [[s1|s1]|e] eqn:Hx.
    + apply IH. eapply Hbody; eauto.
    + intros [= <-]. eapply Hbody; eauto.
    + done.
Qed.

Lemma append_at_grouped (proposals : gmap string (list string))
    (p link : string) :
  grouped_by_project proposals → project_of link = Some p →
  grouped_by_project (append_at proposals p link).
Proof.
  intros Hg Hp q links. unfold append_at.
  destruct (decide (p = q)) as [<-|Hne].
  - rewrite lookup_insert_eq. intros [= <-]. split.
    + by destruct (default [] (proposals !! p)).
    + apply Forall_app. split; [|by repeat constructor].
      destruct (proposals !! p) as [l|] eqn:Hl; [|constructor].
      by apply (Hg p l).
  - rewrite lookup_insert_ne by done. apply Hg.
Qed.

Lemma collect_grouped (clock : Z) (self : Report.t) (mp : MergeProposal)
    (proposals proposals' : gmap string (list string)) :
  grouped_by_project proposals →
  Report.collect clock self mp proposals = Ok (Continue proposals')
  ∨ Report.collect clock self mp proposals = Ok (Break proposals') →
  grouped_by_project proposals'.
Proof.
  intros Hg. unfold Report.collect.
  destruct (in_window clock (Report.window self) (date_created mp))
    as [[]|e]; rewrite ?bind_Ok, ?bind_Raise; cbn [negb].
  - unfold index. fold (segments (web_link mp)).
    fold (project_of (web_link mp)).
    destruct (project_of (web_link mp)) as [p|] eqn:Hp;
      rewrite ?bind_Ok, ?bind_Raise; intros [H|H]; simplify_eq.
    by apply append_at_grouped.
  - intros [H|H]; by simplify_eq.
  - intros [H|H]; done.
Qed.

(** X9: in the mapping that the merge-proposal collection of the report
    builder returns, no project has an empty list, and every link listed
    under a project has that project as its path segment of index 4. *)
Theorem Report_proposals_grouped (clock : Z) (self : Report.t)
    (proposals : gmap string (list string)) :
  Report._render_merge_proposals clock self = Ok proposals →
  ∀ p links, proposals !! p = Some links →
    links ≠ [] ∧ Forall (λ l, project_of l = Some p) links.
Proof.
  unfold Report._render_merge_proposals. intros Hr.
  change (grouped_by_project proposals).
  eapply (for_each_invariant grouped_by_project); [| |exact Hr].
  - intros st s s' Hs. cbv beta zeta.
    destruct (for_each _ (Report.collect clock self) s) as [s1|e] eqn:Hin;
      rewrite ?bind_Ok, ?bind_Raise; intros [H|H]; simplify_eq.
    eapply (for_each_invariant grouped_by_project); [| |exact Hin]; [|done].
    intros mp t t' Ht. by apply collect_grouped.
  - intros p links. by rewrite lookup_empty.
Qed.

Lemma Report_proposals_grouped_witness :
  [Fixture.link "1"] ≠ []
  ∧ Forall (λ l, project_of l = Some "demo") [Fixture.link "1"].
Proof.
  apply (Report_proposals_grouped Fixture.clock
           (Fixture.report
              (Fixture.only "Merged"
                 [Fixture.proposal Fixture.today (Fixture.link "1")]) 8)
           {[ "demo" := [Fixture.link "1"] ]} eq_refl "demo").
  reflexivity.
Defined.

Lemma generate_assembles_witness :
  let project :=
    {| Project.project := Project.project (Fixture.project (Fixture.always []) 8);
       Project.window := 8;
       Project.review_status :=
         ["Needs review"; "Approved"; "Rejected"; "Merged"];
       Project.merge_proposals := [] |} in
  let self := BugFixture.report [] [project] 8 in
  let r := {| Report.merge_proposals := ∅;
              Report.bug_reports := ∅;
              Report.code_reviews := {[ "demo" := ∅ ]} |} in
  Report._render_merge_proposals Fixture.clock self
  = Ok (Report.merge_proposals r)
  ∧ Report._render_reported Fixture.clock self initial
    = (Ok (Report.bug_reports r), initial)
  ∧ ∀ name,
      Report.code_reviews r !! name
      = last ((λ project,
                 Project.render_project_votes_by_user project
                   (LPUser.person (Report.user self)))
              <$> filter (λ project, Project.name project = name)
                         (Report.projects self)).
Proof.
  intros project self r.
  apply (generate_assembles Fixture.clock self initial initial r).
  vm_compute. reflexivity.
Defined.

(** ** Links *)

Section SplitFacts.
Variable sep : Ascii.ascii.

Lemma split_not_nil (s : string) : Str.split sep s ≠ [].
Proof.
  induction s as [|c s IH]; [done|]. simpl.
  destruct (Ascii.eqb c sep); [done|].
  by destruct (Str.split sep s).
Qed.

Lemma split_cons_sep (s : string) :
  Str.split sep (String sep s) = EmptyString :: Str.split sep s.
Proof. simpl. by rewrite Ascii.eqb_refl. Qed.

Lemma split_cons_other (c : Ascii.ascii) (s : string) :
  c ≠ sep →
  ∃ piece pieces, Str.split sep s = piece :: pieces
                  ∧ Str.split sep (String c s) = String c piece :: pieces.
Proof.
  intros Hc. apply Ascii.eqb_neq in Hc. simpl. rewrite Hc.
  destruct (Str.split sep s) as [|piece pieces] eqn:Hs;
    [by apply split_not_nil in Hs|]. eauto.
Qed.

Lemma sep_join_cons (piece : string) (pieces : list string) :
  pieces ≠ [] →
  sep_join sep (piece :: pieces) = piece +:+ String sep (sep_join sep pieces).
Proof. by destruct pieces. Qed.

(** Joining the pieces of a split with the separator gives the string
    back. *)
Lemma join_split (s : string) : sep_join sep (Str.split sep s) = s.
Proof.
  induction s as [|c s IH]; [done|].
  destruct (Ascii.eqb_spec c sep) as [->|Hc].
  - rewrite split_cons_sep, sep_join_cons by apply split_not_nil.
    by rewrite IH.
  - destruct (split_cons_other c s Hc) as (piece & pieces & Hs & ->).
    rewrite Hs in IH. destruct pieces as [|p ps].
    + simpl in *. by rewrite IH.
    + rewrite sep_join_cons in IH |- * by done.
      change (String c piece +:+ ?x) with (String c (piece +:+ x)).
      by rewrite IH.
Qed.

Lemma split_length (s : string) :
  length (Str.split sep s) = S (occurrences sep s).
Proof.
  induction s as [|c s IH]; [done|].
  destruct (Ascii.eqb_spec c sep) as [->|Hc].
  - rewrite split_cons_sep. simpl. rewrite Ascii.eqb_refl. by rewrite IH.
  - destruct (split_cons_other c s Hc) as (piece & pieces & Hs & ->).
    rewrite Hs in IH. simpl in *. apply Ascii.eqb_neq in Hc. by rewrite Hc.
Qed.

Lemma split_pieces_no_sep (s piece : string) :
  piece ∈ Str.split sep s → occurrences sep piece = 0%nat.
Proof.
  revert piece. induction s as [|c s IH]; intros piece.
  - simpl. by intros ->%list_elem_of_singleton.
  - destruct (Ascii.eqb_spec c sep) as [->|Hc].
    + rewrite split_cons_sep. intros [->|Hin]%elem_of_cons; [done|].
      by apply IH.
    + destruct (split_cons_other c s Hc) as (p & ps & Hs & ->).
      rewrite Hs in IH. intros [->|Hin]%elem_of_cons.
      * simpl. apply Ascii.eqb_neq in Hc. rewrite Hc.
        apply IH, list_elem_of_here.
      * by apply IH, list_elem_of_further.
Qed.

Lemma split_app_sep (a b : string) :
  occurrences sep a = 0%nat →
  Str.split sep (a +:+ String sep b) = a :: Str.split sep b.
Proof.
  induction a as [|c a IH]; intros Ha.
  - apply split_cons_sep.
  - simpl in Ha. destruct (Ascii.eqb c sep) eqn:Hc; [done|].
    cbn [String.append]. simpl. rewrite Hc.
    change (a ++ String sep b)%string with (a +:+ String sep b).
    by rewrite (IH Ha).
Qed.

Lemma split_no_sep (a : string) :
  occurrences sep a = 0%nat → Str.split sep a = [a].
Proof.
  induction a as [|c a IH]; intros Ha; [done|].
  simpl in *. destruct (Ascii.eqb c sep); [done|]. by rewrite (IH Ha).
Qed.

End SplitFacts.

(** X10: the project-name derivation of the report builder finds a segment
    of index 4 exactly for the links with at least four slashes. *)
Theorem well_formed_iff_four_slashes (mp : MergeProposal) :
  well_formed mp ↔ (4 ≤ occurrences "/" (web_link mp))%nat.
Proof. unfold well_formed, segments. rewrite split_length. lia. Qed.

(** X11: for a link [https://host/owner/project], followed or not by a
    slash and more, the derived project name is [project], when host, owner
    and project contain no slash. *)
Theorem project_of_url (host owner project rest : string) :
  occurrences "/" host = 0%nat →
  occurrences "/" owner = 0%nat →
  occurrences "/" project = 0%nat →
  project_of ("https://" +:+ host +:+ "/" +:+ owner +:+ "/" +:+ project)
  = Some project
  ∧ project_of ("https://" +:+ host +:+ "/" +:+ owner +:+ "/" +:+ project
                +:+ "/" +:+ rest)
    = Some project.
Proof.
  intros Hh Ho Hp. unfold project_of, segments.
  change ("https://" +:+ ?x)
    with ("https:" +:+ String "/" ("" +:+ String "/" x)).
  split.
  - change (host +:+ "/" +:+ owner +:+ "/" +:+ project)
      with (host +:+ String "/" (owner +:+ String "/" project)).
    rewrite (split_app_sep _ "https:") by done.
    rewrite (split_app_sep _ "") by done.
    rewrite (split_app_sep _ host) by done.
    rewrite (split_app_sep _ owner) by done.
    by rewrite split_no_sep.
  - change (host +:+ "/" +:+ owner +:+ "/" +:+ project +:+ "/" +:+ rest)
      with (host +:+ String "/"
              (owner +:+ String "/" (project +:+ String "/" rest))).
    rewrite (split_app_sep _ "https:") by done.
    rewrite (split_app_sep _ "") by done.
    rewrite (split_app_sep _ host) by done.
    rewrite (split_app_sep _ owner) by done.
    by rewrite (split_app_sep _ project).
Qed.

Lemma project_of_url_witness :
  project_of ("https://" +:+ "code.launchpad.net" +:+ "/" +:+ "~alice" +:+ "/"
              +:+ "demo")
  = Some "demo"
  ∧ project_of ("https://" +:+ "code.launchpad.net" +:+ "/" +:+ "~alice" +:+ "/"
                +:+ "demo" +:+ "/" +:+ "+git/demo/+merge/1")
    = Some "demo".
Proof.
  apply (project_of_url "code.launchpad.net" "~alice" "demo"
           "+git/demo/+merge/1"); reflexivity.
Defined.

(** ** More on the serializer *)



Section SerializerMore.
Context {report : Type}.
Variable yaml_dump : report → bool → string.
Variable json_dumps : report → string.


(** X13: every format that [parse_args] accepts for [--format] is one that
    [output_data] serializes: the command line cannot lead to
    [NotImplementedError]. *)
Theorem format_choices_supported (r : report) (f : string) :
  f ∈ Main.format_choices →
  output_data yaml_dump json_dumps r f ≠ Raise NotImplementedError
  ∧ (output_data yaml_dump json_dumps r f = Ok (yaml_dump r false)
     ∨ output_data yaml_dump json_dumps r f = Ok (json_dumps r)).
Proof.
  unfold Main.format_choices. set_unfold.
  intros [->|[->|[->|[->|[]]]]]; (split; [done|]); auto.
Qed.
End SerializerMore.

Lemma format_choices_supported_witness :
  let yaml_dump (r : list string) (_ : bool) := sep_join "," r in
  let json_dumps (r : list string) := sep_join ";" r in
  output_data yaml_dump json_dumps ["a"; "b"] "JSON"
  ≠ Raise NotImplementedError
  ∧ (output_data yaml_dump json_dumps ["a"; "b"] "JSON"
     = Ok (yaml_dump ["a"; "b"] false)
     ∨ output_data yaml_dump json_dumps ["a"; "b"] "JSON"
       = Ok (json_dumps ["a"; "b"])).
Proof.
  intros yaml_dump json_dumps.
  apply (format_choices_supported yaml_dump json_dumps ["a"; "b"] "JSON").
  unfold Main.format_choices.
  apply list_elem_of_further, list_elem_of_further, list_elem_of_here.
Defined.

(** ** main *)






Section MainFacts.
Variable clock : Z.
Variable yaml_dump : gmap string Report.UserReport → bool → string.
Variable json_dumps : gmap string Report.UserReport → string.


Lemma Project_init_total (launchpad : Launchpad.t) (project : string)
    (window : Z) :
  valid_days window →
  match Launchpad.projects launchpad !! project with
  | Some _ => ∃ p, Project.__init__ clock launchpad project window = Ok p
  | None => Project.__init__ clock launchpad project window = Raise KeyError
  end.
Proof.
  intros Hv. unfold Project.__init__, getitem.
  destruct (Launchpad.projects launchpad !! project) as [p|]; [|done].
  rewrite bind_Ok. cbv zeta. rewrite Project_render_retained by done.
  rewrite bind_Ok. eauto.
Qed.

Lemma build_projects_unknown (launchpad : Launchpad.t) (window : Z)
    (names : list string) (name : string) (acc : list Project.t) :
  valid_days window →
  name ∈ names →
  Launchpad.projects launchpad !! name = None →
  for_each names (λ project projects,
    p ← Project.__init__ clock launchpad project window;
    Ok (Continue (projects ++ [p]))) acc
  = Raise KeyError.
Proof.
  intros Hv Hin Hname. revert acc.
  induction names as [|n names IH]; intros acc; [by apply elem_of_nil in Hin|].
  rewrite for_each_cons.
  pose proof (Project_init_total launchpad n window Hv) as Hn.
  destruct (Launchpad.projects launchpad !! n) as [p|] eqn:Hl.
  - destruct Hn as [q ->]. rewrite bind_Ok.
    apply IH. apply elem_of_cons in Hin as [->|Hin]; [congruence | done].
  - by rewrite Hn, bind_Raise.
Qed.

(** X15: with a representable window, a project name of the command line
    that the provider does not know makes [main] raise [KeyError] before
    any user is looked up, any proxy is made or anything is printed. An
    empty [--projects] string names the one project with the empty name. *)
Theorem main_unknown_project (launchpad : Launchpad.t) (opts : Main.Options)
    (name : string) (ω : Main.world) :
  valid_days (Main.window opts) →
  name ∈ Str.split "," (Main.projects opts) →
  Launchpad.projects launchpad !! name = None →
  Main.main clock yaml_dump json_dumps launchpad opts ω = (Raise KeyError, ω).
Proof.
  intros Hv Hin Hname. unfold Main.main, mbind, Main.IO_bind, Main.pure.
  unfold Main.build_projects.
  by rewrite (build_projects_unknown _ _ _ name).
Qed.

End MainFacts.

Lemma main_unknown_project_witness :
  Main.main Fixture.clock (λ _ _, "yaml") (λ _, "json")
    (Fixture.launchpad (Fixture.always [])) (BugFixture.options "")
    BugFixture.world0
  = (Raise KeyError, BugFixture.world0).
Proof.
  apply (main_unknown_project Fixture.clock (λ _ _, "yaml") (λ _, "json")
           (Fixture.launchpad (Fixture.always []))
           (BugFixture.options "") "" BugFixture.world0).
  - unfold valid_days, MAX_DELTA_DAYS. simpl. lia.
  - apply list_elem_of_here.
  - reflexivity.
Defined.

(** ** More on the caching proxy *)

(** The ways an attribute access can go. *)
Lemma getattr_cases (σ : state) (v : value) (attr : string) :
  (getattr v attr σ).2 = σ
  ∨ (∃ r, (getattr v attr σ).1 = Raise r
          ∧ (getattr v attr σ).2
            = {| heap := heap σ; next := next σ;
                 fetches := fetches σ ++ [attr] |})
  ∨ (∃ o, v = Raw o
          ∧ (getattr v attr σ).2
            = {| heap := heap σ; next := next σ;
                 fetches := fetches σ ++ [attr] |})
  ∨ (∃ self w r, v = Wrapped self ∧ heap σ !! self = Some w
                 ∧ attr ≠ "lpObj" ∧ cached w !! attr = None
                 ∧ getattr_remote (lpObj w) attr = Ok r
                 ∧ getattr v attr σ
                   = (Ok (after_miss σ self attr r).1,
                      (after_miss σ self attr r).2)).
Proof.
  destruct v as [o|self].
  - right. right. left. exists o. split; [done|].
    unfold getattr, mbind, M_bind, fetch.
    by destruct (getattr_remote o attr).
  - destruct (heap σ !! self) as [w|] eqn:Hself.
    + destruct (decide (attr = "lpObj")) as [->|Hattr].
      { left. unfold getattr, mbind, M_bind, deref. by rewrite Hself. }
      destruct (cached w !! attr) as [x|] eqn:Hx.
      { left. by rewrite (getattr_cached _ _ _ _ _ Hself Hattr Hx). }
      destruct (getattr_remote (lpObj w) attr) as [r|e] eqn:Hr.
      * right. right. right. exists self, w, r. repeat (split; [done|]).
        by apply (getattr_miss _ _ w).
      * right. left. exists e.
        by rewrite (getattr_miss_fail _ _ _ _ _ Hself Hattr Hx Hr).
    + left. unfold getattr, mbind, M_bind, deref. by rewrite Hself.
Qed.

(** X16: an attribute access sends at most one request to the provider,
    for the attribute asked, and an access that raises leaves the store of
    proxies as it was: a failed request caches nothing. *)
Theorem getattr_at_most_one_request (σ : state) (v : value) (attr : string) :
  (fetches (getattr v attr σ).2 = fetches σ
   ∨ fetches (getattr v attr σ).2 = fetches σ ++ [attr])
  ∧ (∀ e, (getattr v attr σ).1 = Raise e →
          heap (getattr v attr σ).2 = heap σ
          ∧ next (getattr v attr σ).2 = next σ).
Proof.
  destruct (getattr_cases σ v attr)
    as [H|[(e & He & H)|[(o & -> & H)
          |(self & w & r & -> & _ & _ & _ & _ & H)]]];
    rewrite H.
  - split; [by left | done].
  - split; [by right | done].
  - split; [by right | done].
  - cbn [fst snd]. split; [|done]. right. unfold after_miss.
    by destruct (String.eqb (class_name r) "Entry").
Qed.

(** X17: the cache is per proxy: an attribute access on one value leaves
    every other existing proxy, its cached attributes included, exactly as
    it was. *)
Theorem getattr_leaves_other_proxies (σ : state) (v : value) (attr : string)
    (l : nat) :
  fresh_from_next σ →
  v ≠ Wrapped l →
  is_Some (heap σ !! l) →
  heap (getattr v attr σ).2 !! l = heap σ !! l.
Proof.
  intros Hfresh Hv [w Hl].
  assert (Hlt : (l < next σ)%nat).
  { destruct (decide (l < next σ)%nat); [done|].
    rewrite Hfresh in Hl; [done|lia]. }
  destruct (getattr_cases σ v attr)
    as [H|[(e & He & H)|[(o & -> & H)
          |(self & w' & r & -> & _ & _ & _ & _ & H)]]];
    rewrite H; try done.
  assert (self ≠ l) by congruence. cbn [snd].
  unfold after_miss. destruct (String.eqb (class_name r) "Entry"); simpl.
  - rewrite lookup_alter_ne by done. by rewrite lookup_insert_ne by lia.
  - by rewrite lookup_alter_ne by done.
Qed.

Lemma getattr_leaves_other_proxies_witness :
  let σ := (wrap_all [Fixture.task; Fixture.bug] initial).2 in
  heap (getattr (Wrapped 0) "bug" σ).2 !! 1%nat = heap σ !! 1%nat.
Proof.
  intros σ. apply (getattr_leaves_other_proxies σ (Wrapped 0) "bug" 1).
  - intros l Hl. simpl in *. rewrite !lookup_insert_ne by lia.
    apply lookup_empty.
  - discriminate.
  - eexists. reflexivity.
Defined.

(** ** The bug reports *)

Lemma bind_M {A B : Type} (m : M A) (f : A → M B) (σ σ' : state) (a : A) :
  m σ = (Ok a, σ') → (m ≫= f) σ = f a σ'.
Proof. intros H. unfold mbind, M_bind. by rewrite H. Qed.

Lemma bind_lift {A B : Type} (r : result A) (f : A → M B) (σ : state) :
  (lift r ≫= f) σ
  = match r with
    | Ok a => f a σ
    | Raise e => (Raise e, σ)
    end.
Proof. unfold mbind, M_bind, lift. by destruct r. Qed.

Lemma eqb_Entry_true (o : pyobj) :
  class_name o = "Entry" → String.eqb (class_name o) "Entry" = true.
Proof. intros ->. done. Qed.

Lemma eqb_Entry_false (o : pyobj) :
  class_name o ≠ "Entry" → String.eqb (class_name o) "Entry" = false.
Proof. by intros ?%String.eqb_neq. Qed.

Lemma date_value_not_Entry (d : option datetime) :
  String.eqb (class_name (date_value d)) "Entry" = false.
Proof. by destruct d. Qed.

Lemma in_window_value_date (clock window : Z) (d : option datetime) :
  in_window_value clock window (Raw (date_value d)) = in_window clock window d.
Proof. by destruct d. Qed.

Section Reported.
Variable clock : Z.
Variable window : Z.
Hypothesis Hv : valid_days window.

Lemma reported_task (σ : state) (l : nat) (t : pyobj) (i : task_info)
    (reported : gmap string (list (value * value))) :
  fresh_from_next σ →
  heap σ !! l = Some {| lpObj := t; cached := ∅ |} →
  bug_task t i →
  ∃ σ',
    reported_body clock window l reported σ = (Ok (Continue (record_bug clock window reported i)), σ')
    ∧ fetches σ' = fetches σ ++ task_requests clock window i
    ∧ fresh_from_next σ'
    ∧ (next σ ≤ next σ')%nat
    ∧ ∀ l', l' ≠ l → (l' < next σ)%nat → heap σ' !! l' = heap σ !! l'.
Proof.
  intros Hfresh Hl (Hbug & Hcls & Hdate & Htarget & Hid & Hidc & Htitle & Htc).
  assert (Hlt : (l < next σ)%nat).
  { destruct (decide (l < next σ)%nat); [done|].
    rewrite Hfresh in Hl; [done|lia]. }
  unfold reported_body.
  (* t.bug *)
  erewrite bind_M; [|by eapply (getattr_miss σ l _ "bug" (info_bug i))].
  unfold after_miss at 1 2. rewrite (eqb_Entry_true _ Hcls). cbn [fst snd].
  set (σ1 := {| heap := _; next := S (next σ); fetches := _ |}).
  assert (H1n : heap σ1 !! next σ = Some {| lpObj := info_bug i; cached := ∅ |}).
  { subst σ1. simpl. rewrite lookup_alter_ne by lia. by rewrite lookup_insert_eq. }
  (* bug.date_created *)
  erewrite bind_M; [|by eapply (getattr_miss σ1 (next σ) _ "date_created")].
  unfold after_miss at 1 2. rewrite date_value_not_Entry. cbn [fst snd].
  set (σ2 := {| heap := _; next := next σ1; fetches := _ |}).
  rewrite bind_lift, in_window_value_date.
  unfold record_bug, task_requests, bug_in_window.
  destruct (in_window_total clock window (info_date i) Hv) as [[] Hw];
    rewrite Hw.
  - rewrite bool_decide_eq_true_2 by done.
    assert (H2l : heap σ2 !! l
                  = Some {| lpObj := t;
                            cached := {[ "bug" := Wrapped (next σ) ]} |}).
    { subst σ2 σ1. simpl. rewrite lookup_alter_ne by lia.
      rewrite lookup_alter_eq, lookup_insert_ne by lia. by rewrite Hl. }
    (* t.bug_target_name *)
    erewrite bind_M;
      [|by eapply (getattr_miss σ2 l _ "bug_target_name" (PyStr _))].
    unfold after_miss at 1 2. cbn [class_name String.eqb Ascii.eqb Bool.eqb fst snd].
    set (σ3 := {| heap := _; next := next σ2; fetches := _ |}).
    rewrite bind_lift. cbn [Report.target_key].
    assert (H3l : heap σ3 !! l
                  = Some {| lpObj := t;
                            cached := <["bug_target_name" := Raw (PyStr (info_target i))]>
                                        {[ "bug" := Wrapped (next σ) ]} |}).
    { subst σ3. cbn [heap]. by rewrite lookup_alter_eq, H2l. }
    (* t.bug, cached *)
    erewrite bind_M; [|by eapply (getattr_cached σ3 l _ "bug" (Wrapped (next σ)))].
    assert (H3n : heap σ3 !! next σ
                  = Some {| lpObj := info_bug i;
                            cached := {[ "date_created" := Raw (date_value (info_date i)) ]} |}).
    { subst σ3 σ2. cbn [heap]. rewrite lookup_alter_ne by lia.
      by rewrite lookup_alter_eq, H1n. }
    (* bug.id *)
    erewrite bind_M; [|by eapply (getattr_miss σ3 (next σ) _ "id" (info_id i))].
    unfold after_miss at 1 2. rewrite (eqb_Entry_false _ Hidc). cbn [fst snd].
    set (σ4 := {| heap := _; next := next σ3; fetches := _ |}).
    assert (H4l : heap σ4 !! l = heap σ3 !! l).
    { subst σ4. cbn [heap]. by rewrite lookup_alter_ne by lia. }
    (* t.title *)
    erewrite bind_M; [|eapply (getattr_miss σ4 l _ "title" (info_title i));
                       [by rewrite H4l, H3l|done|done|done]].
    unfold after_miss at 1 2. rewrite (eqb_Entry_false _ Htc). cbn [fst snd].
    eexists. split; [reflexivity|]. simpl.
    split; [by rewrite <- !app_assoc|]. split; [|split; [lia|]].
    + intros l' Hl'. simpl in *.
      rewrite !lookup_alter_ne by lia. rewrite lookup_insert_ne by lia.
      apply Hfresh. lia.
    + intros l' Hne Hl'. simpl.
      rewrite lookup_alter_ne by done. rewrite lookup_alter_ne by lia.
      rewrite lookup_alter_ne by done. rewrite lookup_alter_ne by lia.
      rewrite lookup_alter_ne by done. by rewrite lookup_insert_ne by lia.
  - rewrite bool_decide_eq_false_2 by done.
    eexists. split; [reflexivity|]. simpl.
    split; [by rewrite <- !app_assoc|]. split; [|split; [lia|]].
    + intros l' Hl'. simpl in *.
      rewrite !lookup_alter_ne by lia. rewrite lookup_insert_ne by lia.
      apply Hfresh. lia.
    + intros l' Hne Hl'. simpl.
      rewrite lookup_alter_ne by lia.
      rewrite lookup_alter_ne by done. by rewrite lookup_insert_ne by lia.
Qed.

Lemma reported_loop (tasks : list pyobj) (infos : list task_info) (n : nat)
    (reported : gmap string (list (value * value))) (σ : state) :
  Forall2 bug_task tasks infos →
  fresh_from_next σ →
  (n + length tasks ≤ next σ)%nat →
  (∀ k t, tasks !! k = Some t →
          heap σ !! (n + k)%nat = Some {| lpObj := t; cached := ∅ |}) →
  ∃ σ',
    for_each (seq n (length tasks)) (reported_body clock window) reported σ
    = (Ok (foldl (record_bug clock window) reported infos), σ')
    ∧ fetches σ' = fetches σ ++ flat_map (task_requests clock window) infos.
Proof.
  intros Hshape. revert n reported σ.
  induction Hshape as [|t i tasks infos Ht _ IH]; intros n reported σ Hfresh Hn Hheap.
  - eexists. split; [reflexivity|]. simpl. by rewrite app_nil_r.
  - cbn [length seq for_each foldl flat_map].
    destruct (reported_task σ n t i reported Hfresh) as (σ1 & Hbody & Hf1 & Hfresh1 & Hnext & Hframe).
    { specialize (Hheap 0%nat t eq_refl). by rewrite Nat.add_0_r in Hheap. }
    { done. }
    erewrite bind_M; [|exact Hbody].
    destruct (IH (S n) (record_bug clock window reported i) σ1 Hfresh1)
      as (σ2 & Hloop & Hf2).
    { simpl in Hn. lia. }
    { intros k t' Hk. rewrite Hframe; [|lia|simpl in Hn; apply lookup_lt_Some in Hk; lia].
      replace (S n + k)%nat with (n + S k)%nat by lia. by apply Hheap. }
    exists σ2. split; [done|]. by rewrite Hf2, Hf1, <- app_assoc.
Qed.

End Reported.

Lemma wrap_all_spec (tasks : list pyobj) (σ : state) :
  fresh_from_next σ →
  ∃ σ1,
    wrap_all tasks σ = (Ok (seq (next σ) (length tasks)), σ1)
    ∧ fetches σ1 = fetches σ
    ∧ next σ1 = (next σ + length tasks)%nat
    ∧ fresh_from_next σ1
    ∧ (∀ l, (l < next σ)%nat → heap σ1 !! l = heap σ !! l)
    ∧ (∀ k t, tasks !! k = Some t →
              heap σ1 !! (next σ + k)%nat = Some {| lpObj := t; cached := ∅ |}).
Proof.
  revert σ. induction tasks as [|t tasks IH]; intros σ Hfresh.
  - exists σ. repeat split; [simpl; lia|done|done].
  - destruct (init_keeps σ t Hfresh) as [_ Hfresh1].
    destruct (IH _ Hfresh1) as (σ1 & Hw & Hf & Hn & Hfr & Hold & Hh).
    exists σ1. cbn [wrap_all length seq].
    erewrite bind_M; [|reflexivity]. erewrite bind_M; [|exact Hw].
    simpl in Hn, Hold, Hh.
    split; [done|]. split; [done|]. split; [lia|]. split; [done|]. split.
    + intros l Hl. rewrite Hold by lia. by rewrite lookup_insert_ne by lia.
    + intros [|k] t' Hk; simpl in Hk.
      * injection Hk as <-. rewrite Nat.add_0_r, Hold by lia.
        by rewrite lookup_insert_eq.
      * replace (next σ + S k)%nat with (S (next σ + k)) by lia.
        by apply Hh.
Qed.

(** X18: over bug tasks that provide what the report reads, with a
    representable window, [_render_reported] files under its target name
    the pair of bug id and task title of every task whose bug was created
    in the window (a full filter, without early exit; a bug without
    creation date is left out), in the order of the provider. It requests
    five attributes for a task in the window and two for one outside: the
    second read of [t.bug] is served from the proxy's cache. *)
Theorem render_reported_groups (clock : Z) (self : Report.t) (σ : state)
    (infos : list task_info) :
  valid_days (Report.window self) →
  fresh_from_next σ →
  Forall2 bug_task
    (LPUser.searchTasks (Report.user self) (Report.status self)
       (Report.since self))
    infos →
  ∃ σ',
    Report._render_reported clock self σ
    = (Ok (foldl (record_bug clock (Report.window self)) ∅ infos), σ')
    ∧ fetches σ'
      = fetches σ ++ flat_map (task_requests clock (Report.window self)) infos.
Proof.
  intros Hv Hfresh Hshape. unfold Report._render_reported. cbv zeta.
  destruct (wrap_all_spec
              (LPUser.searchTasks (Report.user self) (Report.status self)
                 (Report.since self)) σ Hfresh)
    as (σ1 & Hw & Hf & Hn & Hfr & _ & Hh).
  erewrite bind_M; [|exact Hw].
  destruct (reported_loop clock _ Hv _ _ (next σ) ∅ σ1 Hshape Hfr) as (σ2 & Hloop & Hf2).
  { lia. }
  { done. }
  exists σ2. split; [exact Hloop|]. by rewrite Hf2, Hf.
Qed.

Lemma render_reported_groups_witness :
  let self :=
    BugFixture.report [BugFixture.task BugFixture.stale;
                       BugFixture.task BugFixture.recent] [] 8 in
  let infos := [BugFixture.stale; BugFixture.recent] in
  ∃ σ',
    Report._render_reported Fixture.clock self initial
    = (Ok (foldl (record_bug Fixture.clock (Report.window self)) ∅ infos), σ')
    ∧ fetches σ'
      = fetches initial
        ++ flat_map (task_requests Fixture.clock (Report.window self)) infos.
Proof.
  intros self infos.
  apply (render_reported_groups Fixture.clock self initial infos).
  - unfold valid_days, MAX_DELTA_DAYS. simpl. lia.
  - intros l Hl. apply lookup_empty.
  - repeat constructor; discriminate.
Defined.

(** A bug of 30 days ago and one of 2 days ago, with a window of 8 days:
    the second is reported, after seven requests in all. *)
Example render_reported_window_8 :
  let self :=
    BugFixture.report [BugFixture.task BugFixture.stale;
                       BugFixture.task BugFixture.recent] [] 8 in
  ∃ σ',
    Report._render_reported Fixture.clock self initial
    = (Ok {[ "demo" := [(Raw (PyInt 1875), Raw (PyStr "Bug #1875 in demo"))] ]},
       σ')
    ∧ fetches σ'
      = ["bug"; "date_created";
         "bug"; "date_created"; "bug_target_name"; "id"; "title"].
Proof. eexists. split; by vm_compute. Qed.
